(** * GitHub Profile Analyzer: the data aggregation and the query cycle of
      [src/App.tsx], embedded and verified.

    The component keeps seven state slots ([useState]) and one asynchronous
    handler, [fetchGitHubData].  The handler fetches a profile, a repository
    page and an event page, derives a language histogram and a daily push
    series from them, and publishes the results through the state setters.

    - JavaScript numbers that are always integers here (counts, sizes) are [Z];
      a number that may be [NaN] (a parsed date) is [option Z].
    - [Record<string, number>] accumulators are lists of own properties in
      creation order, with [Object.entries] enumerating array-index keys
      first; the language accumulator is read and written through
      [Object.prototype], as [{}] is.
    - [Array.prototype.sort] is a stable insertion sort driven by the
      comparator, a [NaN] comparison counting as [+0].
    - The handler is a list of effects (requests and setter calls) computed
      in an error monad that records the effects performed so far. *)

From Stdlib Require Import List String Ascii ZArith NArith Bool Lia.
From Stdlib Require Import Sorting.Sorted Sorting.Permutation.
Import ListNotations.

Open Scope string_scope.
Open Scope Z_scope.

(* ================================================================== *)
(** * JavaScript values used by the component *)

(** [!!s] for a string: only the empty string is falsy. *)
Definition truthy (s : string) : bool := negb (String.eqb s "").

(** A number that may be [NaN]. *)
Definition JsNumber := option Z.
Definition NaN : JsNumber := None.

(** [a - b] on numbers: [NaN] as soon as one operand is [NaN]. *)
Definition js_sub (a b : JsNumber) : JsNumber :=
  match a, b with
  | Some x, Some y => Some (x - y)
  | _, _ => NaN
  end.

(** [a <= b] on numbers: false as soon as one operand is [NaN]. *)
Definition js_le (a b : JsNumber) : bool :=
  match a, b with
  | Some x, Some y => x <=? y
  | _, _ => false
  end.

(** ** Objects used as string-keyed maps

    The two accumulators of the handler start from [{}] and are indexed by
    language names and by formatted dates.  This module holds their own
    properties and the operations on them; what a read or a write of the
    handler does with a name that [Object.prototype] defines is [read]
    and [write], further down. *)

Module JsObject.
Section Obj.
Context {V : Type}.

(** Own properties, in order of creation. *)
Definition t := list (string * V).

(** [o[k]]: [None] stands for [undefined]. *)
Fixpoint get (o : t) (k : string) : option V :=
  match o with
  | [] => None
  | (k', v) :: o' => if String.eqb k' k then Some v else get o' k
  end.

(** [o[k] = v]: an existing property keeps its place, a new one is
    created after all the others. *)
Fixpoint set (o : t) (k : string) (v : V) : t :=
  match o with
  | [] => [(k, v)]
  | (k', v') :: o' =>
      if String.eqb k' k then (k', v) :: o' else (k', v') :: set o' k v
  end.

Definition keys (o : t) : list string := map fst o.

(** *** Property enumeration order

    [Object.entries] lists the array-index keys first, by ascending numeric
    value, then the other string keys by creation time. *)

Definition digit (c : ascii) : option N :=
  let n := N_of_ascii c in
  if ((48 <=? n) && (n <=? 57))%N then Some (n - 48)%N else None.

Fixpoint digits (s : string) (acc : N) : option N :=
  match s with
  | EmptyString => Some acc
  | String c s' =>
      match digit c with
      | Some d => digits s' (10 * acc + d)%N
      | None => None
      end
  end.

(** A canonical numeric string below [2^32 - 1]. *)
Definition array_index (k : string) : option N :=
  match k with
  | EmptyString => None
  | String c rest =>
      if Ascii.eqb c "0"%char
      then (if String.eqb rest "" then Some 0%N else None)
      else match digits k 0%N with
           | Some n => if (n <? 4294967295)%N then Some n else None
           | None => None
           end
  end.

Definition is_index (p : string * V) : bool :=
  match array_index (fst p) with Some _ => true | None => false end.

Definition index_of (p : string * V) : N :=
  match array_index (fst p) with Some n => n | None => 0%N end.

Fixpoint place (p : string * V) (l : list (string * V)) : list (string * V) :=
  match l with
  | [] => [p]
  | q :: l' => if (index_of p <=? index_of q)%N then p :: l else q :: place p l'
  end.

Definition by_index (l : list (string * V)) : list (string * V) :=
  fold_right place [] l.

Definition entries (o : t) : list (string * V) :=
  by_index (filter is_index o) ++ filter (fun p => negb (is_index p)) o.
End Obj.
Arguments t : clear implicits.
End JsObject.

(** [x || 0] where [x] is a number or [undefined]. *)
Definition or0 (x : option Z) : Z :=
  match x with
  | Some v => if Z.eqb v 0 then 0 else v
  | None => 0
  end.

(** ** Property access on an object created by [{}]

    Such an object inherits from [Object.prototype]: reading a name it
    does not own yields the inherited member, a function or, for
    [__proto__], the prototype object itself; assigning to [__proto__]
    runs the inherited setter, which ignores a value that is not an
    object; assigning to any other name creates or updates an own
    property. *)

(** The primitive values a property of the accumulator can hold. *)
Inductive JsValue :=
| Num (n : Z)
| Str (s : string).

(** The members of [Object.prototype], each with the string it becomes
    when it is an operand of a string concatenation. *)
Definition Object_prototype : list (string * string) :=
  [ ("constructor", "function Object() { [native code] }");
    ("__defineGetter__", "function __defineGetter__() { [native code] }");
    ("__defineSetter__", "function __defineSetter__() { [native code] }");
    ("hasOwnProperty", "function hasOwnProperty() { [native code] }");
    ("__lookupGetter__", "function __lookupGetter__() { [native code] }");
    ("__lookupSetter__", "function __lookupSetter__() { [native code] }");
    ("isPrototypeOf", "function isPrototypeOf() { [native code] }");
    ("propertyIsEnumerable",
     "function propertyIsEnumerable() { [native code] }");
    ("toString", "function toString() { [native code] }");
    ("valueOf", "function valueOf() { [native code] }");
    ("__proto__", "[object Object]");
    ("toLocaleString", "function toLocaleString() { [native code] }") ].

Definition inherited (k : string) : option string :=
  JsObject.get Object_prototype k.

(** What [acc[k]] evaluates to. *)
Inductive Property :=
| Undefined
| Own (v : JsValue)
| Inherited (text : string).

Definition read (o : JsObject.t JsValue) (k : string) : Property :=
  match JsObject.get o k with
  | Some v => Own v
  | None =>
      match inherited k with
      | Some text => Inherited text
      | None => Undefined
      end
  end.

(** [acc[k] = v] for a primitive [v]. *)
Definition write (o : JsObject.t JsValue) (k : string) (v : JsValue)
  : JsObject.t JsValue :=
  if String.eqb k "__proto__" then o else JsObject.set o k v.

(** [(x || 0) + 1]: a number is incremented, zero and the empty string
    counting as absent; a non-empty string, a function or an object is
    concatenated with the digit. *)
Definition or0_plus_1 (x : Property) : JsValue :=
  match x with
  | Undefined => Num (0 + 1)
  | Own (Num n) => Num ((if Z.eqb n 0 then 0 else n) + 1)
  | Own (Str text) =>
      if String.eqb text "" then Num (0 + 1) else Str (text ++ "1")
  | Inherited text => Str (text ++ "1")
  end.

(** The number a value is converted to in a subtraction.  The strings
    the reducer stores are the text of a member of [Object.prototype]
    followed by digits (lemma [count_up_stored]); they start with
    [function] or [[object], are not numerals, and convert to [NaN]. *)
Definition to_number (v : JsValue) : JsNumber :=
  match v with
  | Num n => Some n
  | Str _ => NaN
  end.

(** ** [Array.prototype.sort]

    For a consistent comparator the result is the one the language
    defines: the stable sorted arrangement.  For a comparator that is
    not consistent (one that returns [NaN] for some pairs) the language
    leaves the order to the implementation, and this definition is one
    such implementation. *)

Section ArraySort.
Context {A : Type}.
Variable comparefn : A -> A -> JsNumber.

(** The abstract operation SortCompare: a [NaN] result is read as [+0]. *)
Definition SortCompare (x y : A) : Z :=
  match comparefn x y with
  | Some v => v
  | None => 0
  end.

(** [x] goes in front of the first element it does not compare greater
    than, so that elements comparing equal keep their relative order. *)
Fixpoint insert (x : A) (l : list A) : list A :=
  match l with
  | [] => [x]
  | y :: l' => if SortCompare x y <=? 0 then x :: l else y :: insert x l'
  end.

Definition Array_sort (l : list A) : list A := fold_right insert [] l.
End ArraySort.

(* ================================================================== *)
(** * The interfaces of [App.tsx] *)

Module Repository.
Record t := mk {
  id : Z;
  name : string;
  description : option string;
  stargazers_count : Z;
  language : option string;
  html_url : string;
  forks_count : Z;
  created_at : string;
  updated_at : string
}.
End Repository.

Module UserProfile.
Record t := mk {
  avatar_url : string;
  name : string;
  login : string;
  bio : option string;
  followers : Z;
  following : Z;
  public_repos : Z;
  created_at : string
}.
End UserProfile.

Module CommitData.
Record t := mk { date : string; count : Z }.
End CommitData.

(** [count] is declared a number; at run time it holds what the reducer
    stored, which can be a string (see [langMap]). *)
Module LanguageStats.
Record t := mk { name : string; count : JsValue }.
End LanguageStats.

(** The fields of an upstream event that the component reads:
    [event.type], [event.created_at] and [event.payload.size]. *)
Module Event.
Record t := mk { type : string; created_at : string; payload_size : Z }.
End Event.

(* ================================================================== *)
(** * The aggregation code of [fetchGitHubData] *)

(** ** Language statistics *)

Definition langMap (reposData : list Repository.t) : JsObject.t JsValue :=
  fold_left
    (fun acc repo =>
       match Repository.language repo with
       | Some lang =>
           if truthy lang
           then write acc lang (or0_plus_1 (read acc lang))
           else acc
       | None => acc
       end)
    reposData [].

Definition langStats (reposData : list Repository.t) : list LanguageStats.t :=
  Array_sort
    (fun a b => js_sub (to_number (LanguageStats.count b))
                       (to_number (LanguageStats.count a)))
    (map (fun '(name, count) => LanguageStats.mk name count)
         (JsObject.entries (langMap reposData))).

(** The two [map] callbacks over [Object.entries], by name. *)
Definition to_stat : string * JsValue -> LanguageStats.t :=
  fun '(name, count) => LanguageStats.mk name count.

Definition to_point : string * Z -> CommitData.t :=
  fun '(date, count) => CommitData.mk date count.

(** Both reducers of the handler run [acc[k] = (acc[k] || 0) + w] over a
    list of contributions; [tally] is that loop on its own. *)
Definition tally (contributions : list (string * Z)) (acc : JsObject.t Z)
  : JsObject.t Z :=
  fold_left
    (fun acc '(k, w) => JsObject.set acc k (or0 (JsObject.get acc k) + w))
    contributions acc.

(** The contributions with key [k], added up. *)
Definition weight (k : string) (contributions : list (string * Z)) : Z :=
  fold_right Z.add 0
    (map snd (filter (fun c => String.eqb (fst c) k) contributions)).

(** The repository declares a primary language. *)
Definition has_language (repo : Repository.t) : bool :=
  match Repository.language repo with
  | Some lang => truthy lang
  | None => false
  end.

(** The repository declares [l] as its primary language. *)
Definition declares (l : string) (repo : Repository.t) : bool :=
  match Repository.language repo with
  | Some lang => truthy lang && String.eqb lang l
  | None => false
  end.

Definition sumZ (l : list Z) : Z := fold_right Z.add 0 l.

(** What each repository adds to [langMap]: one for its language, when it
    declares one. *)
Definition language_contributions (reposData : list Repository.t)
  : list (string * Z) :=
  flat_map
    (fun repo =>
       match Repository.language repo with
       | Some lang => if truthy lang then [(lang, 1)] else []
       | None => []
       end)
    reposData.

(** ** Commit activity *)

Section Host.
(** The two services of the host's [Date] that the component calls:
    [new Date(created_at).toLocaleDateString()], the local calendar date
    of a timestamp in the host's locale, and [new Date(date).getTime()],
    the instant the host reads back from such a date string. *)
Variable toLocaleDateString : string -> string.
Variable getTime : string -> JsNumber.

Definition isPushEvent (event : Event.t) : bool :=
  String.eqb (Event.type event) "PushEvent".

(** The keys of this accumulator are dates as [toLocaleDateString] writes
    them, none of which is the name of a member of [Object.prototype]:
    its own properties decide every read and write. *)
Definition commitsByDate (eventsData : list Event.t) : JsObject.t Z :=
  fold_left
    (fun acc event =>
       let date := toLocaleDateString (Event.created_at event) in
       JsObject.set acc date
         (or0 (JsObject.get acc date) + Event.payload_size event))
    (filter isPushEvent eventsData) [].

Definition processedCommitData (eventsData : list Event.t)
  : list CommitData.t :=
  Array_sort
    (fun a b => js_sub (getTime (CommitData.date a))
                       (getTime (CommitData.date b)))
    (map (fun '(date, count) => CommitData.mk date count)
         (JsObject.entries (commitsByDate eventsData))).

(* ================================================================ *)
(** * The query cycle *)

(** The seven [useState] slots of [App]. *)
Record AppState := mkState {
  username : string;
  repos : list Repository.t;
  profile : option UserProfile.t;
  commitData : list CommitData.t;
  languageStats : list LanguageStats.t;
  loading : bool;
  error : string
}.

Definition initialState : AppState :=
  mkState "" [] None [] [] false "".

(** What a [catch] clause can receive: an [Error] object with its
    [message], or any other value. *)
Inductive Thrown :=
| ErrorObject (message : string)
| NonError.

(** A [Response]: its [ok] flag and what [json()] settles to, a rejection
    or a body of the shape the handler expects from the endpoint. *)
Record Response (A : Type) := mkResponse {
  ok : bool;
  json : Thrown + A
}.
Arguments ok {A} _.
Arguments json {A} _.

(** What [fetch] settles to for the three endpoints the handler calls:
    a rejection or a response. *)
Record Upstream := mkUpstream {
  fetch_profile : string -> Thrown + Response UserProfile.t;
  fetch_repos : string -> Thrown + Response (list Repository.t);
  fetch_events : string -> Thrown + Response (list Event.t)
}.

(** What the handler does to the outside: it issues a request and is
    suspended until the request settles, or it calls a state setter. *)
Inductive Effect :=
| Request (url : string)
| setRepos (v : list Repository.t)
| setProfile (v : option UserProfile.t)
| setCommitData (v : list CommitData.t)
| setLanguageStats (v : list LanguageStats.t)
| setLoading (v : bool)
| setError (v : string).

(** ** The body of the handler, in an error monad that logs effects *)

Definition Async (A : Type) : Type := list Effect * (Thrown + A).

Definition ret {A} (a : A) : Async A := ([], inr a).

Definition throw {A} (e : Thrown) : Async A := ([], inl e).

Definition bind {A B} (m : Async A) (f : A -> Async B) : Async B :=
  match m with
  | (w, inl e) => (w, inl e)
  | (w, inr a) => let (w', r) := f a in ((w ++ w')%list, r)
  end.

Notation "x <- m ;; k" := (bind m (fun x => k))
  (at level 61, m at next level, right associativity).
Notation "m ;;; k" := (bind m (fun _ => k))
  (at level 61, right associativity).

Definition call (e : Effect) : Async unit := ([e], inr tt).

Definition await_fetch {A} (endpoint : string -> Thrown + Response A)
    (url : string) : Async (Response A) :=
  ([Request url], endpoint url).

Definition await_json {A} (response : Response A) : Async A :=
  ([], json response).

Definition api : string := "https://api.github.com/users/".

Definition try_block (username : string) (net : Upstream) : Async unit :=
  profileResponse <- await_fetch (fetch_profile net) (api ++ username) ;;
  (if negb (ok profileResponse)
   then throw (ErrorObject "User not found or API limit exceeded")
   else ret tt) ;;;
  profileData <- await_json profileResponse ;;
  call (setProfile (Some profileData)) ;;;
  reposResponse <- await_fetch (fetch_repos net)
                     (api ++ username ++ "/repos?sort=updated&per_page=100") ;;
  (if negb (ok reposResponse)
   then throw (ErrorObject "Failed to fetch repositories")
   else ret tt) ;;;
  reposData <- await_json reposResponse ;;
  call (setRepos reposData) ;;;
  call (setLanguageStats (langStats reposData)) ;;;
  commitsResponse <- await_fetch (fetch_events net)
                       (api ++ username ++ "/events") ;;
  (if negb (ok commitsResponse)
   then throw (ErrorObject "Failed to fetch commit data")
   else ret tt) ;;;
  eventsData <- await_json commitsResponse ;;
  call (setCommitData (processedCommitData eventsData)).

Definition catch_block (err : Thrown) : list Effect :=
  [ setError (match err with
              | ErrorObject message => message
              | NonError => "An error occurred"
              end);
    setProfile None;
    setRepos [];
    setCommitData [];
    setLanguageStats [] ].

Definition finally_block : list Effect := [ setLoading false ].

(** [fetchGitHubData], called from a render whose state is [s]. *)
Definition fetchGitHubData (s : AppState) (net : Upstream) : list Effect :=
  if negb (truthy (username s)) then []
  else
    ([ setLoading true; setError "" ]
     ++ (let (done, outcome) := try_block (username s) net in
         done ++ match outcome with
                 | inl err => catch_block err
                 | inr _ => []
                 end)
     ++ finally_block)%list.

(** ** The state the effects leave *)

Definition perform (s : AppState) (e : Effect) : AppState :=
  match e with
  | Request _ => s
  | setRepos v =>
      mkState (username s) v (profile s) (commitData s) (languageStats s)
              (loading s) (error s)
  | setProfile v =>
      mkState (username s) (repos s) v (commitData s) (languageStats s)
              (loading s) (error s)
  | setCommitData v =>
      mkState (username s) (repos s) (profile s) v (languageStats s)
              (loading s) (error s)
  | setLanguageStats v =>
      mkState (username s) (repos s) (profile s) (commitData s) v
              (loading s) (error s)
  | setLoading v =>
      mkState (username s) (repos s) (profile s) (commitData s)
              (languageStats s) v (error s)
  | setError v =>
      mkState (username s) (repos s) (profile s) (commitData s)
              (languageStats s) (loading s) v
  end.

Definition run (s : AppState) (effects : list Effect) : AppState :=
  fold_left perform effects s.

(** The requests issued, in order. *)
Definition requests (effects : list Effect) : list string :=
  flat_map (fun e => match e with Request url => [url] | _ => [] end) effects.

(** The states that get rendered: the one in place each time the handler
    is suspended at a request (the [json()] await that follows a request
    sees the same state), and the one the handler leaves.  A renderer
    that does not batch setter calls also shows the states reached after
    the other prefixes of the effect list. *)
Fixpoint observable (s : AppState) (effects : list Effect) : list AppState :=
  match effects with
  | [] => [s]
  | Request _ :: rest => s :: observable s rest
  | e :: rest => observable (perform s e) rest
  end.

(** The four published views of a state. *)
Definition views (s : AppState) :=
  (profile s, repos s, languageStats s, commitData s).

(** ** Vocabulary for the statements about the cycle *)

Inductive Step := ProfileStep | ReposStep | EventsStep.

Definition step_message (st : Step) : string :=
  match st with
  | ProfileStep => "User not found or API limit exceeded"
  | ReposStep => "Failed to fetch repositories"
  | EventsStep => "Failed to fetch commit data"
  end.

(** What one fetch step hands to the rest of the [try] block: the parsed
    body, or the value that reaches the [catch] clause (the rejection of
    [fetch], the step's own [Error] for a response that is not [ok], or
    the rejection of [json()]). *)
Definition payload {A} (st : Step) (r : Thrown + Response A) : Thrown + A :=
  match r with
  | inl e => inl e
  | inr response =>
      if ok response then json response
      else inl (ErrorObject (step_message st))
  end.

Definition profile_url (u : string) : string := api ++ u.
Definition repos_url (u : string) : string :=
  api ++ u ++ "/repos?sort=updated&per_page=100".
Definition events_url (u : string) : string := api ++ u ++ "/events".

(** The three bodies of a cycle in which every step succeeds, or the
    value thrown by the first step that fails. *)
Definition cycle_result (u : string) (net : Upstream)
  : Thrown + (UserProfile.t * list Repository.t * list Event.t) :=
  match payload ProfileStep (fetch_profile net (profile_url u)) with
  | inl e => inl e
  | inr p =>
      match payload ReposStep (fetch_repos net (repos_url u)) with
      | inl e => inl e
      | inr r =>
          match payload EventsStep (fetch_events net (events_url u)) with
          | inl e => inl e
          | inr ev => inr (p, r, ev)
          end
      end
  end.

(** Step [st] is the one that fails, with [err]; the steps before it
    succeed. *)
Definition fails_at (st : Step) (err : Thrown) (u : string) (net : Upstream)
  : Prop :=
  match st with
  | ProfileStep =>
      payload ProfileStep (fetch_profile net (profile_url u)) = inl err
  | ReposStep =>
      (exists p, payload ProfileStep (fetch_profile net (profile_url u)) = inr p)
      /\ payload ReposStep (fetch_repos net (repos_url u)) = inl err
  | EventsStep =>
      (exists p, payload ProfileStep (fetch_profile net (profile_url u)) = inr p)
      /\ (exists r, payload ReposStep (fetch_repos net (repos_url u)) = inr r)
      /\ payload EventsStep (fetch_events net (events_url u)) = inl err
  end.

(** The text the [catch] clause publishes for a thrown value. *)
Definition message_of (err : Thrown) : string :=
  match err with
  | ErrorObject message => message
  | NonError => "An error occurred"
  end.

(** The local calendar date of an event, as the reducer keys it. *)
Definition event_date (event : Event.t) : string :=
  toLocaleDateString (Event.created_at event).

(** What each push event adds to [commitsByDate]: its size, on its date. *)
Definition push_contributions (eventsData : list Event.t)
  : list (string * Z) :=
  map (fun e => (event_date e, Event.payload_size e))
      (filter isPushEvent eventsData).

(** The push events of [eventsData] that fall on date [d]. *)
Definition pushes_on (d : string) (eventsData : list Event.t) : list Event.t :=
  filter (fun e => isPushEvent e && String.eqb (event_date e) d) eventsData.

(** Their combined size. *)
Definition pushed_on (d : string) (eventsData : list Event.t) : Z :=
  fold_right Z.add 0 (map Event.payload_size (pushes_on d eventsData)).

(** The instant the host reads back from the date of a series entry. *)
Definition instant (p : CommitData.t) : JsNumber :=
  getTime (CommitData.date p).

(** A series is chronological when the instants of its entries never
    decrease along it. *)
Definition chronological (series : list CommitData.t) : Prop :=
  StronglySorted (fun a b => js_le (instant a) (instant b) = true) series.

(** Every push date of [eventsData] is read back as an instant. *)
Definition dates_readable (eventsData : list Event.t) : Prop :=
  Forall (fun e => isPushEvent e = true -> getTime (event_date e) <> NaN)
         eventsData.

(** Publication is atomic in a cycle when every rendered state shows
    either the four views from before the cycle or the four views the
    cycle ends with. *)
Definition atomic_publication (s : AppState) (net : Upstream) : Prop :=
  forall s', In s' (observable s (fetchGitHubData s net)) ->
    views s' = views s \/ views s' = views (run s (fetchGitHubData s net)).

(** The state a failed cycle is said to leave. *)
Definition cleared_with_message (s : AppState) : Prop :=
  profile s = None /\ repos s = [] /\ languageStats s = []
  /\ commitData s = [] /\ error s <> "".

Definition failures_leave_message (s : AppState) (net : Upstream) : Prop :=
  forall st err, fails_at st err (username s) net ->
    cleared_with_message (run s (fetchGitHubData s net)).
End Host.

Arguments ok {A} _.
Arguments json {A} _.
Arguments mkResponse {A} _ _.

(* ================================================================== *)
(** * Concrete hosts and inputs *)

Module Sample.
Fixpoint lookup {B : Type} (table : list (string * B)) (k : string)
  : option B :=
  match table with
  | [] => None
  | (k', b) :: rest => if String.eqb k' k then Some b else lookup rest k
  end.

(** Three pushes, newest first as the event feed delivers them. *)
Definition push_2jan : Event.t :=
  Event.mk "PushEvent" "2024-01-02T09:30:00Z" 2.
Definition push_25dec : Event.t :=
  Event.mk "PushEvent" "2023-12-25T18:00:00Z" 1.
Definition push_1dec : Event.t :=
  Event.mk "PushEvent" "2023-12-01T08:15:00Z" 2.

Definition feed : list Event.t := [push_2jan; push_25dec; push_1dec].

(** A second push on 2 January, a star given on that day, and a push that
    carries no commit. *)
Definition later_push_2jan : Event.t :=
  Event.mk "PushEvent" "2024-01-02T12:00:00Z" 5.
Definition watch_2jan : Event.t :=
  Event.mk "WatchEvent" "2024-01-02T11:00:00Z" 0.
Definition empty_push_1dec : Event.t :=
  Event.mk "PushEvent" "2023-12-01T08:15:00Z" 0.

(** A host in the UTC time zone with the [en-US] locale, on the
    timestamps above: dates are written month/day/year and read back the
    same way. *)
Definition enUS_dates : list (string * string) :=
  [ ("2024-01-02T09:30:00Z", "1/2/2024");
    ("2024-01-02T11:00:00Z", "1/2/2024");
    ("2024-01-02T12:00:00Z", "1/2/2024");
    ("2023-12-25T18:00:00Z", "12/25/2023");
    ("2023-12-01T08:15:00Z", "12/1/2023") ].

Definition enUS_instants : list (string * Z) :=
  [ ("1/2/2024", 1704153600000);
    ("12/25/2023", 1703462400000);
    ("12/1/2023", 1701388800000) ].

Definition enUS_toLocaleDateString (created_at : string) : string :=
  match lookup enUS_dates created_at with
  | Some d => d
  | None => "Invalid Date"
  end.

Definition enUS_getTime (date : string) : JsNumber :=
  lookup enUS_instants date.

(** The same host with the [en-GB] locale: dates are written
    day/month/year, while the date parser still reads month/day/year.
    [02/01/2024] is read back as 1 February 2024, [01/12/2023] as
    12 January 2023, and [25/12/2023] is not a date at all. *)
Definition enGB_dates : list (string * string) :=
  [ ("2024-01-02T09:30:00Z", "02/01/2024");
    ("2024-01-02T11:00:00Z", "02/01/2024");
    ("2024-01-02T12:00:00Z", "02/01/2024");
    ("2023-12-25T18:00:00Z", "25/12/2023");
    ("2023-12-01T08:15:00Z", "01/12/2023") ].

Definition enGB_instants : list (string * Z) :=
  [ ("02/01/2024", 1706745600000);
    ("01/12/2023", 1673481600000) ].

Definition enGB_toLocaleDateString (created_at : string) : string :=
  match lookup enGB_dates created_at with
  | Some d => d
  | None => "Invalid Date"
  end.

Definition enGB_getTime (date : string) : JsNumber :=
  lookup enGB_instants date.

Definition repo (id : Z) (name : string) (language : option string)
  : Repository.t :=
  Repository.mk id name None 0 language
    ("https://github.com/octocat/" ++ name) 0
    "2020-01-01T00:00:00Z" "2024-01-01T00:00:00Z".

Definition octocat : UserProfile.t :=
  UserProfile.mk "https://avatars.githubusercontent.com/u/583231"
    "The Octocat" "octocat" None 100 9 3 "2011-01-25T18:44:36Z".

Definition octocat_repos : list Repository.t :=
  [ repo 1 "hello" (Some "Go"); repo 2 "world" (Some "Go");
    repo 3 "site" (Some "TypeScript"); repo 4 "notes" None ].

Definition respond {A : Type} (body : A) : Thrown + Response A :=
  inr (mkResponse true (inr body)).




(** An upstream that answers the three requests. *)
Definition online : Upstream :=
  mkUpstream (fun _ => respond octocat)
             (fun _ => respond octocat_repos)
             (fun _ => respond feed).

(** An upstream whose answer to [step] is not [ok]. *)
Definition refusing (step : Step) : Upstream :=
  mkUpstream
    (fun _ => match step with
              | ProfileStep => inr (mkResponse false (inr octocat))
              | _ => respond octocat
              end)
    (fun _ => match step with
              | ReposStep => inr (mkResponse false (inr octocat_repos))
              | _ => respond octocat_repos
              end)
    (fun _ => match step with
              | EventsStep => inr (mkResponse false (inr feed))
              | _ => respond feed
              end).

(** An upstream whose profile request is rejected with [new Error()],
    an [Error] whose [message] is the empty string. *)
Definition rejecting : Upstream :=
  mkUpstream (fun _ => inl (ErrorObject ""))
             (fun _ => respond octocat_repos)
             (fun _ => respond feed).

(** The state of a fresh component once [octocat] has been typed in. *)
Definition typed : AppState := mkState "octocat" [] None [] [] false "".

(** A state left by an earlier query, with the input box emptied. *)
Definition emptied : AppState :=
  mkState "" octocat_repos (Some octocat) [CommitData.mk "1/2/2024" 2]
          (langStats octocat_repos) false "".
End Sample.

(* ================================================================== *)
(** * Vocabulary for further statements about the aggregation *)

(** The elements of a list, each at its first occurrence. *)
Fixpoint first_occurrences (l : list string) : list string :=
  match l with
  | [] => []
  | x :: l' =>
      x :: filter (fun y => negb (String.eqb x y)) (first_occurrences l')
  end.

(** The languages the repositories declare, in the order of the list. *)
Definition declared_languages (reposData : list Repository.t) : list string :=
  map fst (language_contributions reposData).

(** The instant read back from a date as an integer, [0] standing in for
    [NaN]; and the same for the date of a series entry. *)
Definition date_key (getTime : string -> JsNumber) (d : string) : Z :=
  match getTime d with Some t => t | None => 0 end.

Definition point_key (getTime : string -> JsNumber) (p : CommitData.t) : Z :=
  date_key getTime (CommitData.date p).

(** No repository declares a language named like a member of
    [Object.prototype]. *)
Definition plain_languages (reposData : list Repository.t) : Prop :=
  Forall (fun l => inherited l = None) (declared_languages reposData).




(** The integer a numeric value holds, [0] for a string. *)
Definition number (v : JsValue) : Z :=
  match v with
  | Num n => n
  | Str _ => 0
  end.

(** The reducer of [langMap] over the declared languages alone. *)
Definition count_up (languages : list string) (acc : JsObject.t JsValue)
  : JsObject.t JsValue :=
  fold_left (fun acc lang => write acc lang (or0_plus_1 (read acc lang)))
            languages acc.

(** What the reducer makes of the property [lang] each time [lang]
    comes up. *)
Definition grow (lang : string) (x : option JsValue) : option JsValue :=
  if String.eqb lang "__proto__" then x
  else Some (or0_plus_1
               match x with
               | Some v => Own v
               | None =>
                   match inherited lang with
                   | Some text => Inherited text
                   | None => Undefined
                   end
               end).

(** The digit [1], [n] times. *)
Fixpoint ones (n : nat) : string :=
  match n with
  | O => ""
  | S n' => "1" ++ ones n'
  end.

(** A value the reducer can store under [lang]: a number, or the text of
    the member of [Object.prototype] of that name followed by digits. *)
Definition stored_under (lang : string) (v : JsValue) : Prop :=
  match v with
  | Num _ => True
  | Str s =>
      exists text n, inherited lang = Some text /\ s = text ++ ones (S n)
  end.

(** Integer counts as values of the accumulator. *)
Definition as_numbers (o : JsObject.t Z) : JsObject.t JsValue :=
  map (fun p => (fst p, Num (snd p))) o.

(** The number of repositories that declare [l]. *)
Definition declared_by (l : string) (reposData : list Repository.t) : Z :=
  Z.of_nat (List.length (filter (declares l) reposData)).

(* ================================================================== *)
(** * What [App] renders

    The element tree returned by [App], reduced to what depends on the
    state: which blocks are present and the data they are given.  Class
    names, icons and fixed captions are left out. *)

Section Render.
(** [formatDate], lines 116 to 122: the host's long [en-US] form of a
    timestamp. *)
Variable formatDate : string -> string.
(** [String.prototype.toUpperCase]. *)
Variable toUpperCase : string -> string.

(** The content of the search button. *)
Inductive ButtonContent :=
| LoadingLabel
| SearchIcon.

(** The first card of the grid. *)
Record ProfileCard := mkProfileCard {
  avatar_src : string;
  avatar_alt : string;
  avatar_fallback : string;
  heading : string;
  handle : string;
  bio_paragraph : option string;
  followers_shown : Z;
  following_shown : Z;
  joined : string
}.

(** One card of the repository list. *)
Record RepoCard := mkRepoCard {
  card_key : Z;
  href : string;
  title : string;
  summary : string;
  language_badge : option string;
  stars_badge : Z;
  forks_badge : Z;
  updated : string
}.

(** What stands between the search bar and the tabs. *)
Inductive MainArea :=
| Skeletons
| ProfileGrid (card : ProfileCard) (bars : list LanguageStats.t)
| NoMain.

(** The two tabs: the line chart and the repository list with its
    caption count. *)
Record TabsView := mkTabsView {
  line_chart : list CommitData.t;
  listed : nat;
  cards : list RepoCard
}.

Record View := mkView {
  input_value : string;
  button_disabled : bool;
  button_content : ButtonContent;
  error_paragraph : option string;
  main_area : MainArea;
  tabs : option TabsView
}.

(** [x && <element>] for a string that may be missing: the element is
    there for a non-empty string. *)
Definition when_truthy (x : option string) : option string :=
  match x with
  | Some text => if truthy text then Some text else None
  | None => None
  end.

(** [x || fallback] for a string that may be missing. *)
Definition or_else (x : option string) (fallback : string) : string :=
  match x with
  | Some text => if truthy text then text else fallback
  | None => fallback
  end.

Definition profile_card (profile : UserProfile.t) : ProfileCard :=
  mkProfileCard
    (UserProfile.avatar_url profile)
    (UserProfile.name profile)
    (toUpperCase (substring 0 2 (UserProfile.login profile)))
    (UserProfile.name profile)
    ("@" ++ UserProfile.login profile)
    (when_truthy (UserProfile.bio profile))
    (UserProfile.followers profile)
    (UserProfile.following profile)
    (formatDate (UserProfile.created_at profile)).

Definition repo_card (repo : Repository.t) : RepoCard :=
  mkRepoCard
    (Repository.id repo)
    (Repository.html_url repo)
    (Repository.name repo)
    (or_else (Repository.description repo) "No description available")
    (when_truthy (Repository.language repo))
    (Repository.stargazers_count repo)
    (Repository.forks_count repo)
    (formatDate (Repository.updated_at repo)).

Definition render (s : AppState) : View :=
  mkView
    (username s)
    (loading s)
    (if loading s then LoadingLabel else SearchIcon)
    (when_truthy (Some (error s)))
    (if loading s then Skeletons
     else match profile s with
          | Some p => ProfileGrid (profile_card p) (languageStats s)
          | None => NoMain
          end)
    (match profile s with
     | Some _ =>
         Some (mkTabsView (commitData s) (List.length (repos s))
                          (map repo_card (repos s)))
     | None => None
     end).
End Render.

(* ================================================================== *)
(** * Sessions: user actions and settling requests

    Between two awaits a handler runs without interruption; while it is
    suspended at a request, the user can act and other requests can
    settle.  A request counts as settled once [fetch] and, for a response
    that is [ok], the [json()] call that follows it have settled: the
    handler calls no setter between the two. *)

Section Sessions.
Variable toLocaleDateString : string -> string.
Variable getTime : string -> JsNumber.

(** [setUsername], the [onChange] handler of the input. *)
Definition setUsername (v : string) (s : AppState) : AppState :=
  mkState v (repos s) (profile s) (commitData s) (languageStats s)
          (loading s) (error s).

(** A handler runs until it issues a request, which suspends it with the
    effects it has yet to perform, or until it ends. *)
Fixpoint advance (s : AppState) (effects : list Effect)
  : AppState * option (list Effect) :=
  match effects with
  | [] => (s, None)
  | Request _ :: rest => (s, Some rest)
  | e :: rest => advance (perform s e) rest
  end.

(** The state in place and the suspended handlers. *)
Record Session := mkSession {
  current : AppState;
  pending : list (list Effect)
}.

(** What can happen next.  The action that may call [fetchGitHubData]
    comes with the answers the upstream will give to that call. *)
Inductive Action :=
| Typing (value : string)
| KeyDown (key : string) (net : Upstream)
| Click (net : Upstream)
| Settle (i : nat).

Fixpoint replace_nth {A} (i : nat) (x : A) (l : list A) : list A :=
  match l, i with
  | [], _ => []
  | _ :: l', O => x :: l'
  | y :: l', S i' => y :: replace_nth i' x l'
  end.

Fixpoint remove_nth {A} (i : nat) (l : list A) : list A :=
  match l, i with
  | [], _ => []
  | _ :: l', O => l'
  | y :: l', S i' => y :: remove_nth i' l'
  end.

(** A call of [fetchGitHubData] from the render of the state in place. *)
Definition launch (net : Upstream) (x : Session) : Session :=
  match advance (current x)
          (fetchGitHubData toLocaleDateString getTime (current x) net) with
  | (s', Some rest) => mkSession s' (pending x ++ [rest])
  | (s', None) => mkSession s' (pending x)
  end.

(** The request of the [i]-th suspended handler settles. *)
Definition settle (i : nat) (x : Session) : Session :=
  match nth_error (pending x) i with
  | None => x
  | Some k =>
      match advance (current x) k with
      | (s', Some rest) => mkSession s' (replace_nth i rest (pending x))
      | (s', None) => mkSession s' (remove_nth i (pending x))
      end
  end.

(** [onChange] sets the identifier; [onKeyDown] calls the handler on
    Enter; [onClick] calls it unless the button is disabled, which it is
    while [loading]. *)
Definition step (x : Session) (a : Action) : Session :=
  match a with
  | Typing value => mkSession (setUsername value (current x)) (pending x)
  | KeyDown key net => if String.eqb key "Enter" then launch net x else x
  | Click net => if loading (current x) then x else launch net x
  | Settle i => settle i x
  end.

Definition session (actions : list Action) : Session :=
  fold_left step actions (mkSession initialState []).

(** A list of effects that does not touch the loading flag. *)
Definition quiet (effects : list Effect) : bool :=
  forallb (fun e => match e with setLoading _ => false | _ => true end)
          effects.

(** What a suspended handler has yet to do: effects that leave the
    loading flag alone, then the [finally] block. *)
Definition continuation (k : list Effect) : Prop :=
  exists mid, k = (mid ++ finally_block)%list /\ quiet mid = true.

(** The effects left to a handler suspended at its profile request, when
    its three steps are to succeed and when its profile step is to fail. *)
Definition after_profile_request (u : string) (p : UserProfile.t)
    (r : list Repository.t) (ev : list Event.t) : list Effect :=
  [ setProfile (Some p); Request (repos_url u);
    setRepos r; setLanguageStats (langStats r); Request (events_url u);
    setCommitData (processedCommitData toLocaleDateString getTime ev);
    setLoading false ].

Definition after_failed_profile (err : Thrown) : list Effect :=
  (catch_block err ++ finally_block)%list.

(** What every session keeps: the suspended handlers are continuations,
    and with none of them left the loading flag is down. *)
Definition settled_means_idle (x : Session) : Prop :=
  Forall continuation (pending x)
  /\ (pending x = [] -> loading (current x) = false).

(** Sessions driven with the button: at most one handler is suspended,
    and the flag is up exactly while one is. *)
Definition one_at_a_time (x : Session) : Prop :=
  Forall continuation (pending x)
  /\ (List.length (pending x) <= 1)%nat
  /\ (loading (current x) = true <-> pending x <> []).

(** The loading flag is said to be up for the duration of every cycle:
    in a session, whenever a call of the handler is in flight. *)
Definition flag_up_while_in_flight (x : Session) : Prop :=
  pending x <> [] -> loading (current x) = true.

(** The actions that leave the Enter key alone. *)
Definition by_button (a : Action) : bool :=
  match a with
  | KeyDown key _ => negb (String.eqb key "Enter")
  | _ => true
  end.
End Sessions.

(* ================================================================== *)
(** * Further concrete inputs *)

Module Scenario.
(** Four repositories: Go twice, then TypeScript and Rust once each. *)
Definition polyglot : list Repository.t :=
  [ Sample.repo 1 "hello" (Some "Go");
    Sample.repo 2 "site" (Some "TypeScript");
    Sample.repo 3 "world" (Some "Go");
    Sample.repo 4 "engine" (Some "Rust") ].

(** The event feed of [Sample], oldest first. *)
Definition feed_reversed : list Event.t :=
  [Sample.push_1dec; Sample.push_25dec; Sample.push_2jan].

(** The two host services of the rendering, on the timestamps and the
    logins of [Sample]: the long [en-US] form of a date in the UTC time
    zone, and upper case for the letters a to z. *)
Definition long_dates : list (string * string) :=
  [ ("2011-01-25T18:44:36Z", "January 25, 2011");
    ("2024-01-01T00:00:00Z", "January 1, 2024") ].

Definition formatDate (dateString : string) : string :=
  match Sample.lookup long_dates dateString with
  | Some d => d
  | None => "Invalid Date"
  end.

Fixpoint toUpperCase (s : string) : string :=
  match s with
  | EmptyString => EmptyString
  | String c rest =>
      let n := N_of_ascii c in
      String (if ((97 <=? n) && (n <=? 122))%N
              then ascii_of_N (n - 32) else c)
             (toUpperCase rest)
  end.

(** A second account and an upstream that answers for it. *)
Definition hubot : UserProfile.t :=
  UserProfile.mk "https://avatars.githubusercontent.com/u/480938"
    "Hubot" "hubot" None 50 0 4 "2011-01-25T18:44:36Z".

Definition elsewhere : Upstream :=
  mkUpstream (fun _ => Sample.respond hubot)
             (fun _ => Sample.respond polyglot)
             (fun _ => Sample.respond [Sample.watch_2jan]).

(** A state left by a successful query for [octocat]. *)
Definition loaded : AppState :=
  mkState "octocat" Sample.octocat_repos (Some Sample.octocat)
          [CommitData.mk "1/2/2024" 2]
          (langStats Sample.octocat_repos) false "".
End Scenario.

(* ================================================================== *)
(** * Properties of the JavaScript primitives *)

Lemma or0_value (v : Z) : or0 (Some v) = v.
Proof.
  unfold or0. destruct (Z.eqb_spec v 0); congruence.
Qed.

Module JsObjectFacts.
Import JsObject.

Section Facts.
Context {V : Type}.
Implicit Types (o : JsObject.t V) (k : string) (v : V).

Lemma get_set_same o k v : get (set o k v) k = Some v.
Proof.
  induction o as [|[k' v'] o IH]; simpl.
  - now rewrite String.eqb_refl.
  - destruct (String.eqb k' k) eqn:E; simpl; rewrite E; auto.
Qed.

Lemma get_set_other o k v k' : k' <> k -> get (set o k v) k' = get o k'.
Proof.
  intros Hne. induction o as [|[k0 v0] o IH]; simpl.
  - destruct (String.eqb_spec k k'); congruence.
  - destruct (String.eqb_spec k0 k) as [->|Hk]; simpl.
    + destruct (String.eqb_spec k k'); congruence.
    + now rewrite IH.
Qed.

Lemma keys_set o k v k' : In k' (keys (set o k v)) <-> k' = k \/ In k' (keys o).
Proof.
  unfold keys. induction o as [|[k0 v0] o IH]; simpl.
  - intuition congruence.
  - destruct (String.eqb_spec k0 k) as [->|Hk]; simpl.
    + intuition congruence.
    + rewrite IH. intuition congruence.
Qed.

Lemma NoDup_keys_set o k v : NoDup (keys o) -> NoDup (keys (set o k v)).
Proof.
  induction o as [|[k0 v0] o IH]; simpl; intros Hnd.
  - repeat constructor. intros [].
  - inversion Hnd as [|? ? Hnotin Hnd']; subst.
    destruct (String.eqb_spec k0 k) as [->|Hk]; simpl.
    + now constructor.
    + constructor; [|now apply IH].
      intros Hin. apply keys_set in Hin as [->|Hin]; [congruence|].
      now apply Hnotin.
Qed.

Lemma get_In o k v : NoDup (keys o) -> In (k, v) o -> get o k = Some v.
Proof.
  induction o as [|[k0 v0] o IH]; simpl; intros Hnd Hin; [easy|].
  inversion Hnd as [|? ? Hnotin Hnd']; subst.
  destruct Hin as [Heq|Hin].
  - inversion Heq; subst. now rewrite String.eqb_refl.
  - destruct (String.eqb_spec k0 k) as [->|Hk]; [|now apply IH].
    exfalso. apply Hnotin. change k with (fst (k, v)). now apply in_map.
Qed.

(** Enumeration only reorders the own properties. *)

Lemma place_perm (p : string * V) l : Permutation (place p l) (p :: l).
Proof.
  induction l as [|q l IH]; simpl; [reflexivity|].
  destruct (index_of p <=? index_of q)%N; [reflexivity|].
  rewrite IH. apply perm_swap.
Qed.

Lemma by_index_perm (l : list (string * V)) : Permutation (by_index l) l.
Proof.
  induction l as [|p l IH]; simpl; [reflexivity|].
  rewrite place_perm. now constructor.
Qed.

Lemma split_perm {A} (f : A -> bool) (l : list A) :
  Permutation (filter f l ++ filter (fun x => negb (f x)) l) l.
Proof.
  induction l as [|x l IH]; simpl; [reflexivity|].
  destruct (f x); simpl.
  - now constructor.
  - rewrite <- Permutation_middle. now constructor.
Qed.

Lemma entries_perm o : Permutation (entries o) o.
Proof.
  unfold entries. rewrite by_index_perm. apply split_perm.
Qed.

(** Keys that are not array indices are enumerated in creation order. *)
Lemma entries_creation_order o :
  forallb (fun p => negb (is_index p)) o = true -> entries o = o.
Proof.
  unfold entries. induction o as [|p o IH]; simpl; [reflexivity|].
  intros H. apply andb_true_iff in H as [Hp Ho].
  destruct (is_index p); [discriminate|]. simpl.
  specialize (IH Ho).
  assert (Hnil : filter is_index o = []).
  { clear IH. induction o as [|q o IHo]; simpl in *; [reflexivity|].
    apply andb_true_iff in Ho as [Hq Ho].
    destruct (is_index q); [discriminate|]. now apply IHo. }
  rewrite Hnil in *. simpl in *. now rewrite IH.
Qed.
End Facts.
End JsObjectFacts.

(** ** Sorting *)

Section ArraySortFacts.
Context {A : Type}.
Variable comparefn : A -> A -> JsNumber.

Lemma insert_perm (x : A) l : Permutation (insert comparefn x l) (x :: l).
Proof.
  induction l as [|y l IH]; simpl; [reflexivity|].
  destruct (SortCompare comparefn x y <=? 0); [reflexivity|].
  rewrite IH. apply perm_swap.
Qed.

Lemma Array_sort_perm (l : list A) : Permutation (Array_sort comparefn l) l.
Proof.
  induction l as [|x l IH]; simpl; [reflexivity|].
  rewrite insert_perm. now constructor.
Qed.

(** When, on the elements at hand, the comparator agrees with the order
    of an integer key, the result is sorted by that key. *)
Variable key : A -> Z.
Variable P : A -> Prop.
Hypothesis consistent :
  forall x y, P x -> P y ->
    (SortCompare comparefn x y <= 0 <-> key x <= key y).

Lemma insert_sorted (x : A) l :
  P x -> Forall P l ->
  StronglySorted (fun a b => key a <= key b) l -> StronglySorted (fun a b => key a <= key b) (insert comparefn x l).
Proof.
  intros Px. induction l as [|y l IH]; simpl; intros HP Hs.
  - repeat constructor.
  - inversion HP as [|? ? Py HPl]; subst.
    inversion Hs as [|? ? Hsl Hy]; subst.
    pose proof (consistent x y Px Py) as Hc.
    destruct (Z.leb_spec (SortCompare comparefn x y) 0) as [Hle|Hgt].
    + constructor; [assumption|].
      constructor; [now apply Hc|].
      eapply Forall_impl; [|exact Hy].
      simpl. intros z Hz. apply Hc in Hle. lia.
    + constructor; [now apply IH|].
      eapply Permutation_Forall; [symmetry; apply insert_perm|].
      constructor; [|assumption].
      destruct (Z.le_gt_cases (key x) (key y)) as [H|H]; [|lia].
      apply Hc in H. lia.
Qed.

Lemma Array_sort_sorted (l : list A) :
  Forall P l ->
  StronglySorted (fun a b => key a <= key b) (Array_sort comparefn l).
Proof.
  induction l as [|x l IH]; simpl; intros HP.
  - constructor.
  - inversion HP; subst. apply insert_sorted; auto.
    eapply Permutation_Forall; [symmetry; apply Array_sort_perm|assumption].
Qed.
End ArraySortFacts.


(* ================================================================== *)
(** * Properties of the reducers *)

Lemma sumZ_perm (l l' : list Z) : Permutation l l' -> sumZ l = sumZ l'.
Proof.
  induction 1; simpl; lia.
Qed.

Lemma sumZ_app (l l' : list Z) : sumZ (l ++ l') = sumZ l + sumZ l'.
Proof.
  induction l; simpl; lia.
Qed.

Section TallyFacts.
Import JsObject JsObjectFacts.
Implicit Types (acc : JsObject.t Z) (cs : list (string * Z)) (k : string).

Lemma tally_cons k w cs acc :
  tally ((k, w) :: cs) acc = tally cs (set acc k (or0 (get acc k) + w)).
Proof. reflexivity. Qed.

Lemma tally_app cs cs' acc : tally (cs ++ cs') acc = tally cs' (tally cs acc).
Proof. apply fold_left_app. Qed.

Lemma weight_cons k k' w cs :
  weight k ((k', w) :: cs)
  = (if String.eqb k' k then w else 0) + weight k cs.
Proof.
  unfold weight. simpl. destruct (String.eqb k' k); simpl; lia.
Qed.

Lemma sum_set acc k v :
  sumZ (map snd (set acc k v)) = sumZ (map snd acc) - or0 (get acc k) + v.
Proof.
  induction acc as [|[k' v'] acc IH]; [simpl; lia|].
  change (set ((k', v') :: acc) k v)
    with (if String.eqb k' k then (k', v) :: acc else (k', v') :: set acc k v).
  change (get ((k', v') :: acc) k)
    with (if String.eqb k' k then Some v' else get acc k).
  destruct (String.eqb k' k).
  - rewrite or0_value. simpl. lia.
  - simpl. rewrite IH. lia.
Qed.

Lemma tally_total cs acc :
  sumZ (map snd (tally cs acc)) = sumZ (map snd acc) + sumZ (map snd cs).
Proof.
  revert acc. induction cs as [|[k w] cs IH]; intros acc.
  - simpl. lia.
  - rewrite tally_cons, IH, sum_set. simpl. lia.
Qed.

Lemma tally_keys cs acc k :
  In k (keys (tally cs acc)) <-> In k (keys acc) \/ In k (map fst cs).
Proof.
  revert acc. induction cs as [|[k' w] cs IH]; intros acc.
  - simpl. intuition.
  - rewrite tally_cons, IH, keys_set. simpl. intuition.
Qed.

Lemma tally_NoDup cs acc : NoDup (keys acc) -> NoDup (keys (tally cs acc)).
Proof.
  revert acc. induction cs as [|[k' w] cs IH]; intros acc Hnd; [assumption|].
  rewrite tally_cons. apply IH. now apply NoDup_keys_set.
Qed.

Lemma tally_get cs acc k :
  or0 (get (tally cs acc) k) = or0 (get acc k) + weight k cs.
Proof.
  revert acc. induction cs as [|[k' w] cs IH]; intros acc.
  - unfold weight. simpl. lia.
  - rewrite tally_cons, IH, weight_cons.
    destruct (String.eqb_spec k' k) as [->|Hne].
    + rewrite get_set_same, or0_value. lia.
    + rewrite get_set_other by congruence. lia.
Qed.

(** An own property of a tally started from the empty object holds the
    combined weight of its key, and its key was contributed. *)
Lemma tally_In cs k v :
  In (k, v) (tally cs []) -> v = weight k cs /\ In k (map fst cs).
Proof.
  intros Hin. split.
  - assert (Hget : get (tally cs []) k = Some v).
    { apply get_In; [|assumption]. apply tally_NoDup. constructor. }
    pose proof (tally_get cs [] k) as H. rewrite Hget, or0_value in H.
    simpl in H. lia.
  - assert (Hk : In k (keys (tally cs []))).
    { change k with (fst (k, v)). now apply in_map. }
    apply tally_keys in Hk as [[]|Hk]. assumption.
Qed.
End TallyFacts.

(** ** The language histogram *)

Section HistogramFacts.
Import JsObject JsObjectFacts.

Lemma has_language_eq (repo : Repository.t) :
  has_language repo
  = match Repository.language repo with
    | Some lang => truthy lang
    | None => false
    end.
Proof. reflexivity. Qed.

Lemma declares_eq (l : string) (repo : Repository.t) :
  declares l repo
  = match Repository.language repo with
    | Some lang => truthy lang && String.eqb lang l
    | None => false
    end.
Proof. reflexivity. Qed.

Lemma contributions_cons (repo : Repository.t) (reposData : list Repository.t) :
  language_contributions (repo :: reposData)
  = (match Repository.language repo with
     | Some lang => if truthy lang then [(lang, 1)] else []
     | None => []
     end ++ language_contributions reposData)%list.
Proof. reflexivity. Qed.


Lemma contributions_total (reposData : list Repository.t) :
  sumZ (map snd (language_contributions reposData))
  = Z.of_nat (List.length (filter has_language reposData)).
Proof.
  induction reposData as [|repo reposData IH]; [reflexivity|].
  rewrite contributions_cons, map_app, sumZ_app, IH.
  simpl filter. rewrite has_language_eq.
  destruct (Repository.language repo) as [lang|]; [|simpl; lia].
  destruct (truthy lang); simpl List.length; simpl sumZ; lia.
Qed.

Lemma contributions_weight (l : string) (reposData : list Repository.t) :
  weight l (language_contributions reposData)
  = Z.of_nat (List.length (filter (declares l) reposData)).
Proof.
  induction reposData as [|repo reposData IH]; [reflexivity|].
  rewrite contributions_cons. simpl filter. rewrite declares_eq.
  destruct (Repository.language repo) as [lang|]; [|assumption].
  destruct (truthy lang); simpl; [|assumption].
  rewrite weight_cons, IH.
  destruct (String.eqb lang l); simpl List.length; lia.
Qed.



Lemma contributions_ones (reposData : list Repository.t) :
  map (fun lang => (lang, 1)) (declared_languages reposData)
  = language_contributions reposData.
Proof.
  unfold declared_languages.
  induction reposData as [|repo reposData IH]; [reflexivity|].
  rewrite contributions_cons, !map_app, IH. f_equal.
  destruct (Repository.language repo) as [lang|]; [|reflexivity].
  destruct (truthy lang); reflexivity.
Qed.

(** *** The reducer *)

Lemma langMap_count_up (reposData : list Repository.t) :
  langMap reposData = count_up (declared_languages reposData) [].
Proof.
  unfold langMap, declared_languages, count_up.
  generalize (@nil (string * JsValue)) as acc.
  induction reposData as [|repo reposData IH]; intros acc; [reflexivity|].
  rewrite contributions_cons, map_app, fold_left_app. simpl fold_left at 1.
  rewrite IH. f_equal.
  destruct (Repository.language repo) as [lang|]; [|reflexivity].
  destruct (truthy lang); reflexivity.
Qed.

Lemma inherited_not_proto (k : string) :
  inherited k = None -> String.eqb k "__proto__" = false.
Proof.
  intros Hplain. destruct (String.eqb_spec k "__proto__") as [->|]; [|reflexivity].
  discriminate Hplain.
Qed.

Lemma get_as_numbers (o : JsObject.t Z) (k : string) :
  get (as_numbers o) k = option_map Num (get o k).
Proof.
  induction o as [|[k' v] o IH]; [reflexivity|].
  simpl. destruct (String.eqb k' k); [reflexivity|exact IH].
Qed.

Lemma set_as_numbers (o : JsObject.t Z) (k : string) (v : Z) :
  set (as_numbers o) k (Num v) = as_numbers (set o k v).
Proof.
  induction o as [|[k' v'] o IH]; [reflexivity|].
  simpl. destruct (String.eqb k' k); simpl; [reflexivity|now rewrite IH].
Qed.

Lemma keys_as_numbers (o : JsObject.t Z) : keys (as_numbers o) = keys o.
Proof.
  unfold keys, as_numbers. rewrite map_map. reflexivity.
Qed.

(** On names that [Object.prototype] does not define, the reducer counts
    in the own properties. *)
Lemma count_up_plain (languages : list string) (acc : JsObject.t Z) :
  Forall (fun l => inherited l = None) languages ->
  count_up languages (as_numbers acc)
  = as_numbers (tally (map (fun lang => (lang, 1)) languages) acc).
Proof.
  intros Hplain. revert acc.
  induction Hplain as [|lang languages Hlang _ IH]; intros acc; [reflexivity|].
  simpl map. rewrite tally_cons, <- IH. unfold count_up. simpl. f_equal.
  unfold write, read. rewrite (inherited_not_proto _ Hlang), get_as_numbers, Hlang.
  rewrite <- set_as_numbers. f_equal.
  destruct (get acc lang); reflexivity.
Qed.

Lemma langMap_plain (reposData : list Repository.t) :
  plain_languages reposData ->
  langMap reposData
  = as_numbers (tally (language_contributions reposData) []).
Proof.
  intros Hplain.
  rewrite langMap_count_up, <- contributions_ones.
  now apply (count_up_plain _ []).
Qed.

Lemma langStats_perm (reposData : list Repository.t) :
  plain_languages reposData ->
  Permutation (langStats reposData)
              (map to_stat
                   (as_numbers (tally (language_contributions reposData) []))).
Proof.
  intros Hplain. unfold langStats.
  rewrite Array_sort_perm, (langMap_plain _ Hplain).
  apply Permutation_map, entries_perm.
Qed.


(** With plain names every entry carries, as a number, the number of
    repositories that declare its language. *)
Lemma langStats_entries (reposData : list Repository.t) :
  plain_languages reposData ->
  Forall (fun e =>
            In (LanguageStats.name e)
               (map fst (language_contributions reposData))
            /\ LanguageStats.count e
               = Num (Z.of_nat
                        (List.length
                           (filter (declares (LanguageStats.name e))
                                   reposData))))
         (langStats reposData).
Proof.
  intros Hplain.
  eapply Permutation_Forall; [symmetry; now apply langStats_perm|].
  apply Forall_forall. intros e He.
  apply in_map_iff in He as [[k v] [<- Hin]].
  apply in_map_iff in Hin as [[k' n] [Heq Hin]].
  simpl in Heq. inversion Heq; subst k v. simpl.
  apply tally_In in Hin as [-> Hk].
  now rewrite contributions_weight.
Qed.

(** *** The reducer on any names *)

Lemma get_Some_In {V} (o : JsObject.t V) (k : string) (v : V) :
  get o k = Some v -> In (k, v) o.
Proof.
  induction o as [|[k' v'] o IH]; simpl; [discriminate|].
  destruct (String.eqb_spec k' k) as [->|_].
  - intros Heq. inversion Heq. now left.
  - intros Hget. right. now apply IH.
Qed.

Lemma write_NoDup (o : JsObject.t JsValue) (k : string) (v : JsValue) :
  NoDup (keys o) -> NoDup (keys (write o k v)).
Proof.
  unfold write. destruct (String.eqb k "__proto__"); [trivial|].
  apply NoDup_keys_set.
Qed.

Lemma write_length (o : JsObject.t JsValue) (k : string) (v : JsValue) :
  (List.length (write o k v) <= S (List.length o))%nat.
Proof.
  unfold write. destruct (String.eqb k "__proto__"); [lia|].
  induction o as [|[k' v'] o IH]; simpl; [lia|].
  destruct (String.eqb k' k); simpl; lia.
Qed.

Lemma count_up_cons (lang : string) (languages : list string)
    (acc : JsObject.t JsValue) :
  count_up (lang :: languages) acc
  = count_up languages (write acc lang (or0_plus_1 (read acc lang))).
Proof. reflexivity. Qed.

Lemma count_up_NoDup (languages : list string) (acc : JsObject.t JsValue) :
  NoDup (keys acc) -> NoDup (keys (count_up languages acc)).
Proof.
  revert acc. induction languages as [|lang languages IH]; intros acc Hnd;
    [assumption|].
  rewrite count_up_cons. apply IH. now apply write_NoDup.
Qed.

Lemma count_up_length (languages : list string) (acc : JsObject.t JsValue) :
  (List.length (count_up languages acc)
   <= List.length acc + List.length languages)%nat.
Proof.
  revert acc. induction languages as [|lang languages IH]; intros acc;
    [simpl; lia|].
  rewrite count_up_cons. etransitivity; [apply IH|].
  pose proof (write_length acc lang (or0_plus_1 (read acc lang))).
  simpl. lia.
Qed.

Lemma write_get (o : JsObject.t JsValue) (lang k : string) :
  get (write o lang (or0_plus_1 (read o lang))) k
  = if String.eqb lang k then grow lang (get o k) else get o k.
Proof.
  unfold write, grow, read.
  destruct (String.eqb_spec lang k) as [->|Hne].
  - destruct (String.eqb k "__proto__"); [reflexivity|].
    rewrite get_set_same. now destruct (get o k).
  - destruct (String.eqb lang "__proto__"); [reflexivity|].
    now rewrite get_set_other by congruence.
Qed.

Lemma count_up_get (languages : list string) (acc : JsObject.t JsValue)
    (k : string) :
  get (count_up languages acc) k
  = Nat.iter (count_occ string_dec languages k) (grow k) (get acc k).
Proof.
  revert acc. induction languages as [|lang languages IH]; intros acc;
    [reflexivity|].
  rewrite count_up_cons, IH, write_get. simpl count_occ.
  destruct (string_dec lang k) as [->|Hne].
  - rewrite String.eqb_refl. now rewrite Nat.iter_succ_r.
  - destruct (String.eqb_spec lang k); [congruence|reflexivity].
Qed.

Lemma text_app_assoc (a b c : string) : (a ++ b) ++ c = a ++ (b ++ c).
Proof.
  induction a as [|ch a IH]; [reflexivity|].
  simpl. now rewrite IH.
Qed.

Lemma ones_snoc (n : nat) : ones n ++ "1" = ones (S n).
Proof.
  induction n as [|n IH]; [reflexivity|].
  simpl. now rewrite IH.
Qed.

Lemma set_stored (o : JsObject.t JsValue) (k : string) (v : JsValue) :
  Forall (fun p => stored_under (fst p) (snd p)) o ->
  stored_under k v ->
  Forall (fun p => stored_under (fst p) (snd p)) (set o k v).
Proof.
  intros Hall Hv. induction Hall as [|[k' v'] o Hp Hall IH]; simpl.
  - now repeat constructor.
  - destruct (String.eqb_spec k' k) as [->|_]; constructor; auto.
Qed.

(** The strings the reducer stores are texts of inherited members
    followed by digits; none of them is a numeral. *)
Lemma count_up_stored (languages : list string) (acc : JsObject.t JsValue) :
  Forall (fun p => stored_under (fst p) (snd p)) acc ->
  Forall (fun p => stored_under (fst p) (snd p)) (count_up languages acc).
Proof.
  revert acc. induction languages as [|lang languages IH]; intros acc Hall;
    [assumption|].
  rewrite count_up_cons. apply IH. unfold write.
  destruct (String.eqb lang "__proto__"); [assumption|].
  apply set_stored; [assumption|]. unfold read.
  destruct (get acc lang) as [[n|s]|] eqn:Hget; simpl; [trivial| |].
  - apply get_Some_In in Hget. rewrite Forall_forall in Hall.
    destruct (Hall _ Hget) as [text [n [Hmember ->]]]. simpl fst in Hmember.
    destruct (String.eqb (text ++ ones (S n)) ""); simpl; [trivial|].
    exists text, (S n). split; [assumption|].
    rewrite text_app_assoc. f_equal. exact (ones_snoc (S n)).
  - destruct (inherited lang) as [text|] eqn:Hmember; simpl; [|trivial].
    exists text, O. split; [exact Hmember|reflexivity].
Qed.

Lemma count_up_perm (languages languages' : list string) :
  Permutation languages languages' ->
  Permutation (count_up languages []) (count_up languages' []).
Proof.
  intros Hperm.
  assert (Hnd : forall ls, NoDup (keys (count_up ls []))).
  { intros ls. apply count_up_NoDup. constructor. }
  apply NoDup_Permutation.
  - apply NoDup_map_inv with (f := fst). apply Hnd.
  - apply NoDup_map_inv with (f := fst). apply Hnd.
  - intros [k v].
    assert (Hget : get (count_up languages []) k
                   = get (count_up languages' []) k).
    { rewrite !count_up_get.
      now rewrite (proj1 (Permutation_count_occ string_dec _ _) Hperm k). }
    split; intros Hin.
    + apply get_Some_In. rewrite <- Hget. apply get_In; [apply Hnd|exact Hin].
    + apply get_Some_In. rewrite Hget. apply get_In; [apply Hnd|exact Hin].
Qed.
End HistogramFacts.

Lemma StronglySorted_weaken {A} (R R' : A -> A -> Prop) (l : list A) :
  (forall a b, R a b -> R' a b) -> StronglySorted R l -> StronglySorted R' l.
Proof.
  intros Himp. induction 1 as [|a l Hs IH Hall]; constructor; [assumption|].
  eapply Forall_impl; [|exact Hall]. intros b. apply Himp.
Qed.



Lemma stat_count_total (o : JsObject.t Z) :
  map (fun e => number (LanguageStats.count e)) (map to_stat (as_numbers o))
  = map snd o.
Proof.
  unfold as_numbers. rewrite !map_map. apply map_ext. now intros [k v].
Qed.

Lemma numbers_of_counts (h : list LanguageStats.t) :
  Forall (fun e => exists n, LanguageStats.count e = Num n) h ->
  map LanguageStats.count h
  = map Num (map (fun e => number (LanguageStats.count e)) h).
Proof.
  induction 1 as [|e h [n Hn] _ IH]; [reflexivity|].
  simpl. now rewrite IH, Hn.
Qed.

Lemma langStats_numeric (reposData : list Repository.t) :
  plain_languages reposData ->
  Forall (fun e => exists n, LanguageStats.count e = Num n)
         (langStats reposData).
Proof.
  intros Hplain.
  eapply Forall_impl; [|exact (langStats_entries _ Hplain)].
  intros e [_ Hcount]. eauto.
Qed.

(* ================================================================== *)
(** * The language histogram: statements *)










(* ================================================================== *)
(** * The activity series *)

Lemma StronglySorted_on {A} (P : A -> Prop) (R R' : A -> A -> Prop) (l : list A) :
  (forall a b, P a -> P b -> R a b -> R' a b) ->
  Forall P l -> StronglySorted R l -> StronglySorted R' l.
Proof.
  intros Himp HP Hs. induction Hs as [|a l Hs IH Hall]; constructor.
  - apply IH. now inversion HP.
  - inversion HP as [|? ? Pa Pl]; subst.
    rewrite Forall_forall in *. intros b Hb. apply Himp; auto.
Qed.

Section SeriesFacts.
Import JsObject JsObjectFacts.
Variable toLocaleDateString : string -> string.


Lemma commitsByDate_tally (eventsData : list Event.t) :
  commitsByDate toLocaleDateString eventsData = tally (push_contributions toLocaleDateString eventsData) [].
Proof.
  unfold commitsByDate, push_contributions.
  generalize (@nil (string * Z)) as acc.
  induction (filter isPushEvent eventsData) as [|e l IH]; intros acc;
    [reflexivity|].
  simpl. now rewrite IH.
Qed.

Lemma push_contributions_cons (e : Event.t) (eventsData : list Event.t) :
  push_contributions toLocaleDateString (e :: eventsData)
  = if isPushEvent e
    then (event_date toLocaleDateString e, Event.payload_size e) :: push_contributions toLocaleDateString eventsData
    else push_contributions toLocaleDateString eventsData.
Proof.
  unfold push_contributions. simpl.
  destruct (isPushEvent e); reflexivity.
Qed.

Lemma push_contributions_filter (eventsData : list Event.t) :
  push_contributions toLocaleDateString (filter isPushEvent eventsData)
  = push_contributions toLocaleDateString eventsData.
Proof.
  induction eventsData as [|e eventsData IH]; [reflexivity|].
  simpl filter. rewrite push_contributions_cons.
  destruct (isPushEvent e) eqn:E; [|assumption].
  now rewrite push_contributions_cons, E, IH.
Qed.

Lemma push_weight (d : string) (eventsData : list Event.t) :
  weight d (push_contributions toLocaleDateString eventsData) = pushed_on toLocaleDateString d eventsData.
Proof.
  unfold pushed_on, pushes_on.
  induction eventsData as [|e eventsData IH]; [reflexivity|].
  rewrite push_contributions_cons. simpl filter.
  destruct (isPushEvent e); simpl andb; [|assumption].
  rewrite weight_cons, IH.
  destruct (String.eqb (event_date toLocaleDateString e) d); simpl; lia.
Qed.

Lemma push_keys (d : string) (eventsData : list Event.t) :
  In d (map fst (push_contributions toLocaleDateString eventsData))
  <-> existsb (fun e => isPushEvent e && String.eqb (event_date toLocaleDateString e) d)
              eventsData = true.
Proof.
  induction eventsData as [|e eventsData IH]; [simpl; intuition discriminate|].
  rewrite push_contributions_cons. simpl existsb. rewrite orb_true_iff.
  destruct (isPushEvent e); simpl; [|rewrite IH; intuition discriminate].
  rewrite IH.
  destruct (String.eqb_spec (event_date toLocaleDateString e) d); intuition (congruence || discriminate).
Qed.

Variable getTime : string -> JsNumber.

Lemma series_perm (eventsData : list Event.t) :
  Permutation (processedCommitData toLocaleDateString getTime eventsData)
              (map to_point (tally (push_contributions toLocaleDateString eventsData) [])).
Proof.
  unfold processedCommitData.
  rewrite Array_sort_perm, commitsByDate_tally.
  apply Permutation_map, entries_perm.
Qed.

Lemma dates_perm (eventsData : list Event.t) :
  Permutation (map CommitData.date (processedCommitData toLocaleDateString getTime eventsData))
              (keys (tally (push_contributions toLocaleDateString eventsData) [])).
Proof.
  rewrite (Permutation_map _ (series_perm eventsData)).
  unfold keys. rewrite map_map.
  erewrite map_ext; [reflexivity|]. now intros [k v].
Qed.

(** Every date that was contributed is the date of an entry, whose count
    is the combined size of the pushes of that date. *)
Lemma series_entry (d : string) (eventsData : list Event.t) :
  In d (map fst (push_contributions toLocaleDateString eventsData)) ->
  In (CommitData.mk d (pushed_on toLocaleDateString d eventsData))
     (processedCommitData toLocaleDateString getTime eventsData).
Proof.
  intros Hd.
  eapply Permutation_in; [symmetry; apply series_perm|].
  assert (Hk : In d (keys (tally (push_contributions toLocaleDateString eventsData) []))).
  { apply tally_keys. now right. }
  apply in_map_iff in Hk as [[k v] [Hfst Hin]]. simpl in Hfst. subst k.
  apply in_map_iff. exists (d, v). split; [|assumption].
  apply tally_In in Hin as [-> _]. simpl. now rewrite push_weight.
Qed.
End SeriesFacts.

(** ** Statements *)

(** C1. For every event sequence and every host, the activity series has
    exactly one entry for each local calendar date on which a push event
    occurs and none for any other date; the count of an entry is the sum of
    the sizes of the push events of its date; events that are not push
    events do not matter, the series being that of the push events alone.
    Two push events of one date with sizes 2 and 5 give [(date, 7)]. *)
Theorem activity_series_per_date
    (toLocaleDateString : string -> string) (getTime : string -> JsNumber)
    (eventsData : list Event.t) :
  let series := processedCommitData toLocaleDateString getTime eventsData in
  (forall d : string,
     count_occ string_dec (map CommitData.date series) d
     = if existsb (fun e => isPushEvent e
                            && String.eqb (event_date toLocaleDateString e) d)
                  eventsData
       then 1%nat else 0%nat)
  /\ Forall (fun p => CommitData.count p
                      = pushed_on toLocaleDateString (CommitData.date p)
                                  eventsData)
            series
  /\ processedCommitData toLocaleDateString getTime
       (filter isPushEvent eventsData) = series
  /\ (forall e1 e2 : Event.t,
        isPushEvent e1 = true -> isPushEvent e2 = true ->
        event_date toLocaleDateString e1 = event_date toLocaleDateString e2 ->
        Event.payload_size e1 = 2 -> Event.payload_size e2 = 5 ->
        processedCommitData toLocaleDateString getTime [e1; e2]
        = [CommitData.mk (event_date toLocaleDateString e1) 7]).
Proof.
  intros series. subst series. repeat split.
  - intros d.
    pose proof (dates_perm toLocaleDateString getTime eventsData) as Hperm.
    rewrite (proj1 (Permutation_count_occ string_dec _ _) Hperm d).
    assert (Hnd : NoDup (JsObject.keys
                           (tally (push_contributions toLocaleDateString
                                                      eventsData) []))).
    { apply tally_NoDup. constructor. }
    destruct (existsb _ eventsData) eqn:E.
    + apply (proj1 (NoDup_count_occ' string_dec _) Hnd).
      apply tally_keys. right. now apply push_keys.
    + apply count_occ_not_In. intros Hin.
      apply tally_keys in Hin as [[]|Hin].
      apply push_keys in Hin. congruence.
  - eapply Permutation_Forall; [symmetry; apply series_perm|].
    apply Forall_forall. intros p Hp.
    apply in_map_iff in Hp as [[k v] [<- Hin]]. simpl.
    apply tally_In in Hin as [-> _]. apply push_weight.
  - unfold processedCommitData.
    now rewrite !commitsByDate_tally, push_contributions_filter.
  - intros e1 e2 P1 P2 Hdate S1 S2.
    unfold processedCommitData. rewrite commitsByDate_tally.
    rewrite !push_contributions_cons, P1, P2, <- Hdate, S1, S2.
    unfold push_contributions. simpl filter. simpl map.
    rewrite !String.eqb_refl. simpl.
    unfold JsObject.entries. simpl filter.
    destruct (JsObject.is_index _); reflexivity.
Qed.

Lemma activity_series_per_date_witness :
  processedCommitData Sample.enUS_toLocaleDateString Sample.enUS_getTime
    [Sample.push_2jan; Sample.later_push_2jan]
  = [CommitData.mk "1/2/2024" 7].
Proof.
  apply (activity_series_per_date
           Sample.enUS_toLocaleDateString Sample.enUS_getTime
           [Sample.push_2jan; Sample.later_push_2jan]);
    reflexivity.
Defined.

(** C7. For every event sequence and every host, the local calendar date
    of each push event is the date of an entry of the activity series,
    and that entry carries the combined size of the pushes of the date;
    when the combined size is zero the entry is there with count 0. *)
Theorem zero_sum_date_included
    (toLocaleDateString : string -> string) (getTime : string -> JsNumber)
    (eventsData : list Event.t) (e : Event.t) :
  In e eventsData -> isPushEvent e = true ->
  let d := event_date toLocaleDateString e in
  let series := processedCommitData toLocaleDateString getTime eventsData in
  In d (map CommitData.date series)
  /\ In (CommitData.mk d (pushed_on toLocaleDateString d eventsData)) series
  /\ (pushed_on toLocaleDateString d eventsData = 0 ->
      In (CommitData.mk d 0) series).
Proof.
  intros Hin Hpush d series. subst d series.
  assert (Hentry :
    In (CommitData.mk (event_date toLocaleDateString e)
          (pushed_on toLocaleDateString (event_date toLocaleDateString e)
                     eventsData))
       (processedCommitData toLocaleDateString getTime eventsData)).
  { apply series_entry. apply push_keys. apply existsb_exists.
    exists e. split; [assumption|].
    now rewrite Hpush, String.eqb_refl. }
  split; [|split].
  - apply in_map_iff. eexists. split; [|exact Hentry]. reflexivity.
  - exact Hentry.
  - intros Hzero. now rewrite Hzero in Hentry.
Qed.

Lemma zero_sum_date_included_witness :
  In (CommitData.mk "12/1/2023" 0)
     (processedCommitData Sample.enUS_toLocaleDateString Sample.enUS_getTime
        [Sample.watch_2jan; Sample.empty_push_1dec]).
Proof.
  apply (zero_sum_date_included
           Sample.enUS_toLocaleDateString Sample.enUS_getTime
           [Sample.watch_2jan; Sample.empty_push_1dec]
           Sample.empty_push_1dec).
  - simpl. right. left. reflexivity.
  - reflexivity.
  - reflexivity.
Defined.

(** On a host that reads every push date back as an instant, whatever the
    order of the events, the activity series is sorted by the instant read
    back from the date of each entry, never decreasing. *)
Theorem activity_series_chronological
    (toLocaleDateString : string -> string) (getTime : string -> JsNumber)
    (eventsData : list Event.t) :
  dates_readable toLocaleDateString getTime eventsData ->
  chronological getTime
    (processedCommitData toLocaleDateString getTime eventsData).
Proof.
  intros Hreadable.
  set (P := fun p : CommitData.t => instant getTime p <> NaN).
  set (key := fun p : CommitData.t =>
                match instant getTime p with Some t => t | None => 0 end).
  assert (HP : Forall P (processedCommitData toLocaleDateString getTime
                                             eventsData)).
  { eapply Permutation_Forall; [symmetry; apply series_perm|].
    apply Forall_forall. intros p Hp.
    apply in_map_iff in Hp as [[k v] [<- Hin]].
    apply tally_In in Hin as [_ Hk].
    apply push_keys, existsb_exists in Hk as [e [He Hd]].
    apply andb_true_iff in Hd as [Hpush Hd].
    apply String.eqb_eq in Hd. subst k.
    unfold dates_readable in Hreadable. rewrite Forall_forall in Hreadable.
    unfold P, instant. simpl. now apply Hreadable. }
  unfold chronological.
  apply StronglySorted_on
    with (P := P) (R := fun a b => key a <= key b); [|exact HP|].
  - intros a b Pa Pb. unfold P, key, js_le in *.
    destruct (instant getTime a); [|now elim Pa].
    destruct (instant getTime b); [|now elim Pb].
    intros Hle. now apply Z.leb_le.
  - unfold processedCommitData.
    apply Array_sort_sorted with (P := P).
    + intros x y Px Py. unfold SortCompare, js_sub, P, key in *.
      fold (instant getTime x). fold (instant getTime y).
      destruct (instant getTime x); [|now elim Px].
      destruct (instant getTime y); [|now elim Py].
      lia.
    + unfold processedCommitData in HP.
      eapply Permutation_Forall; [apply Array_sort_perm|exact HP].
Qed.

Lemma activity_series_chronological_witness :
  chronological Sample.enUS_getTime
    (processedCommitData Sample.enUS_toLocaleDateString Sample.enUS_getTime
       Sample.feed).
Proof.
  apply (activity_series_chronological
           Sample.enUS_toLocaleDateString Sample.enUS_getTime Sample.feed).
  unfold dates_readable, Sample.feed.
  repeat constructor; intros _; discriminate.
Defined.

(** C5. The activity series is to be sorted by date, earliest first, for
    every event sequence.  On an [en-GB] host the handler does not do so:
    the feed of 2 January 2024, 25 December 2023 and 1 December 2023 comes
    out in that order, latest first, the date [25/12/2023] being read back
    as [NaN] and [02/01/2024] as an instant later than that of
    [01/12/2023]. *)
Lemma activity_series_not_chronological_enGB :
  processedCommitData Sample.enGB_toLocaleDateString Sample.enGB_getTime
    Sample.feed
  = [ CommitData.mk "02/01/2024" 2; CommitData.mk "25/12/2023" 1;
      CommitData.mk "01/12/2023" 2 ]
  /\ ~ chronological Sample.enGB_getTime
         (processedCommitData Sample.enGB_toLocaleDateString
            Sample.enGB_getTime Sample.feed).
Proof.
  assert (Hseries :
    processedCommitData Sample.enGB_toLocaleDateString Sample.enGB_getTime
      Sample.feed
    = [ CommitData.mk "02/01/2024" 2; CommitData.mk "25/12/2023" 1;
        CommitData.mk "01/12/2023" 2 ]) by reflexivity.
  split; [exact Hseries|].
  rewrite Hseries. unfold chronological. intros Hsorted.
  inversion Hsorted as [|? ? _ Hall]; subst.
  inversion Hall as [|? ? Hle _]; subst.
  discriminate Hle.
Qed.

(* ================================================================== *)
(** * The query cycle *)

Lemma truthy_nonempty (s : string) : s <> "" -> truthy s = true.
Proof.
  intros Hne. unfold truthy. now destruct (String.eqb_spec s "").
Qed.

(** The rendered states are those in place at the requests, followed by
    the state the handler leaves. *)
Lemma observable_final (s : AppState) (effects : list Effect) :
  exists pending : list AppState,
    observable s effects = (pending ++ [run s effects])%list
    /\ List.length pending = List.length (requests effects).
Proof.
  revert s. induction effects as [|e effects IH]; intros s.
  - exists []. split; reflexivity.
  - destruct e as [url|v|v|v|v|v|v]; simpl; try apply IH.
    destruct (IH s) as [pending [Hobs Hlen]].
    exists (s :: pending). simpl. rewrite Hobs, Hlen. split; reflexivity.
Qed.

Section CycleFacts.
Variable toLocaleDateString : string -> string.
Variable getTime : string -> JsNumber.

(** The effects of the [try] block, by the step that fails first. *)
Lemma try_block_cases (u : string) (net : Upstream) :
  try_block toLocaleDateString getTime u net
  = match payload ProfileStep (fetch_profile net (profile_url u)) with
    | inl e => ([Request (profile_url u)], inl e)
    | inr p =>
        match payload ReposStep (fetch_repos net (repos_url u)) with
        | inl e =>
            ([ Request (profile_url u); setProfile (Some p);
               Request (repos_url u) ], inl e)
        | inr r =>
            match payload EventsStep (fetch_events net (events_url u)) with
            | inl e =>
                ([ Request (profile_url u); setProfile (Some p);
                   Request (repos_url u); setRepos r;
                   setLanguageStats (langStats r);
                   Request (events_url u) ], inl e)
            | inr ev =>
                ([ Request (profile_url u); setProfile (Some p);
                   Request (repos_url u); setRepos r;
                   setLanguageStats (langStats r);
                   Request (events_url u);
                   setCommitData
                     (processedCommitData toLocaleDateString getTime ev) ],
                 inr tt)
            end
        end
    end.
Proof.
  unfold try_block, payload, await_fetch, await_json, bind, call, throw, ret.
  fold (profile_url u). fold (repos_url u). fold (events_url u).
  destruct (fetch_profile net (profile_url u)) as [e1|[ok1 [j1|p]]];
    simpl; try reflexivity; destruct ok1; simpl; try reflexivity.
  destruct (fetch_repos net (repos_url u)) as [e2|[ok2 [j2|r]]];
    simpl; try reflexivity; destruct ok2; simpl; try reflexivity.
  destruct (fetch_events net (events_url u)) as [e3|[ok3 [j3|ev]]];
    simpl; try reflexivity; destruct ok3; simpl; reflexivity.
Qed.

(** A response that is not [ok] is turned into the step's own [Error]. *)
Lemma payload_not_ok {A} (st : Step) (response : Response A) :
  ok response = false ->
  payload st (inr response) = inl (ErrorObject (step_message st)).
Proof.
  intros Hok. unfold payload. now rewrite Hok.
Qed.

Lemma step_message_nonempty (st : Step) : step_message st <> "".
Proof.
  destruct st; discriminate.
Qed.
End CycleFacts.

Ltac start_cycle Hname :=
  unfold fetchGitHubData;
  rewrite (truthy_nonempty _ Hname); simpl negb; cbv iota;
  rewrite try_block_cases.

(** ** Statements *)

(** C8. In every state, the handler run with an empty identifier issues
    no request and leaves the whole state as it was: profile,
    repositories, histogram, series, loading flag and error message. *)
Theorem empty_query_is_noop
    (toLocaleDateString : string -> string) (getTime : string -> JsNumber)
    (s : AppState) (net : Upstream) :
  username s = "" ->
  let effects := fetchGitHubData toLocaleDateString getTime s net in
  effects = []
  /\ requests effects = []
  /\ run s effects = s
  /\ observable s effects = [s].
Proof.
  intros Hempty effects. subst effects.
  unfold fetchGitHubData. rewrite Hempty. simpl. auto.
Qed.

Lemma empty_query_is_noop_witness :
  requests (fetchGitHubData Sample.enUS_toLocaleDateString
              Sample.enUS_getTime Sample.emptied Sample.online) = []
  /\ run Sample.emptied
       (fetchGitHubData Sample.enUS_toLocaleDateString
          Sample.enUS_getTime Sample.emptied Sample.online)
     = Sample.emptied.
Proof.
  destruct (empty_query_is_noop Sample.enUS_toLocaleDateString
              Sample.enUS_getTime Sample.emptied Sample.online eq_refl)
    as (_ & Hreq & Hrun & _).
  split; assumption.
Defined.

(** C3, as the code has it. For every cycle with a non-empty identifier
    in which one of the three steps fails, whichever it is, the state at
    the end of the cycle has a null profile, no repositories, an empty
    histogram, an empty series, the loading flag down, and as error
    message the text of what was thrown: the message of the [Error], or
    the fallback text for a value that is not an [Error].  That text is
    non-empty unless the thrown [Error] has an empty message; a response
    that is not [ok] always publishes the non-empty message of its step. *)
Theorem failed_cycle_clears_state
    (toLocaleDateString : string -> string) (getTime : string -> JsNumber)
    (s : AppState) (net : Upstream) (st : Step) (err : Thrown) :
  username s <> "" ->
  fails_at st err (username s) net ->
  let s' := run s (fetchGitHubData toLocaleDateString getTime s net) in
  profile s' = None
  /\ repos s' = []
  /\ languageStats s' = []
  /\ commitData s' = []
  /\ loading s' = false
  /\ error s' = message_of err
  /\ (err <> ErrorObject "" -> error s' <> "")
  /\ (err = ErrorObject (step_message st) -> error s' = step_message st).
Proof.
  intros Hname Hfail s'. subst s'.
  assert (Hmsg : err <> ErrorObject "" -> message_of err <> "").
  { destruct err as [message|]; simpl; [congruence|discriminate]. }
  start_cycle Hname.
  destruct st; simpl in Hfail.
  - rewrite Hfail. simpl. repeat split; auto. now intros ->.
  - destruct Hfail as [[p Hp] Hr]. rewrite Hp, Hr. simpl.
    repeat split; auto. now intros ->.
  - destruct Hfail as [[p Hp] [[r Hr] He]]. rewrite Hp, Hr, He. simpl.
    repeat split; auto. now intros ->.
Qed.

Lemma failed_cycle_clears_state_witness :
  views (run Sample.typed
           (fetchGitHubData Sample.enUS_toLocaleDateString
              Sample.enUS_getTime Sample.typed
              (Sample.refusing ReposStep)))
  = (None, [], [], [])
  /\ error (run Sample.typed
              (fetchGitHubData Sample.enUS_toLocaleDateString
                 Sample.enUS_getTime Sample.typed
                 (Sample.refusing ReposStep)))
     = "Failed to fetch repositories".
Proof.
  assert (Hname : username Sample.typed <> "") by discriminate.
  assert (Hfail : fails_at ReposStep
                    (ErrorObject (step_message ReposStep))
                    (username Sample.typed) (Sample.refusing ReposStep)).
  { split; [exists Sample.octocat|]; reflexivity. }
  destruct (failed_cycle_clears_state Sample.enUS_toLocaleDateString
              Sample.enUS_getTime Sample.typed (Sample.refusing ReposStep)
              ReposStep (ErrorObject (step_message ReposStep)) Hname Hfail)
    as (Hp & Hr & Hl & Hc & _ & _ & _ & Herr).
  split.
  - unfold views. now rewrite Hp, Hr, Hl, Hc.
  - now apply Herr.
Defined.

(** C3, as stated, fails when the profile request is rejected with an
    [Error] whose message is empty: the state is cleared and the error
    message published is the empty string. *)
Lemma rejected_with_empty_message :
  error (run Sample.typed
           (fetchGitHubData Sample.enUS_toLocaleDateString
              Sample.enUS_getTime Sample.typed Sample.rejecting)) = ""
  /\ ~ failures_leave_message Sample.enUS_toLocaleDateString
         Sample.enUS_getTime Sample.typed Sample.rejecting.
Proof.
  split; [reflexivity|].
  intros Hclaim.
  destruct (Hclaim ProfileStep (ErrorObject "") eq_refl)
    as (_ & _ & _ & _ & Herr).
  now apply Herr.
Qed.

(** C4, as the code has it. For every cycle with a non-empty identifier
    that runs on its own, the views are published step by step, each
    result as soon as its step has succeeded.  The states rendered are,
    in order: while the profile request is pending, the four views from
    before the cycle; if the profile step succeeds, while the repository
    request is pending, the new profile next to the earlier
    repositories, histogram and series; if the repository step succeeds
    too, while the event request is pending, the new profile,
    repositories and histogram next to the earlier series; and last the
    state the cycle ends in.  In that last state the four views agree:
    after three successful steps they are the profile, the repositories,
    the histogram of those repositories and the series of the events of
    this cycle, and after a failed step, whichever it is and whatever was
    published before it, they are all cleared. *)
Theorem views_published_stepwise
    (toLocaleDateString : string -> string) (getTime : string -> JsNumber)
    (s : AppState) (net : Upstream) :
  username s <> "" ->
  let u := username s in
  let effects := fetchGitHubData toLocaleDateString getTime s net in
  let cleared := (@None UserProfile.t, @nil Repository.t,
                  @nil LanguageStats.t, @nil CommitData.t) in
  map views (observable s effects)
  = match payload ProfileStep (fetch_profile net (profile_url u)) with
    | inl _ => [ views s; cleared ]
    | inr p =>
        let with_profile :=
          (Some p, repos s, languageStats s, commitData s) in
        match payload ReposStep (fetch_repos net (repos_url u)) with
        | inl _ => [ views s; with_profile; cleared ]
        | inr r =>
            let with_repos := (Some p, r, langStats r, commitData s) in
            match payload EventsStep (fetch_events net (events_url u)) with
            | inl _ => [ views s; with_profile; with_repos; cleared ]
            | inr ev =>
                [ views s; with_profile; with_repos;
                  (Some p, r, langStats r,
                   processedCommitData toLocaleDateString getTime ev) ]
            end
        end
    end
  /\ views (run s effects)
     = match cycle_result u net with
       | inr (p, r, ev) =>
           (Some p, r, langStats r,
            processedCommitData toLocaleDateString getTime ev)
       | inl _ => cleared
       end.
Proof.
  intros Hname u effects cleared. subst u effects cleared.
  unfold cycle_result. start_cycle Hname.
  destruct (payload ProfileStep _) as [e1|p]; [split; reflexivity|].
  destruct (payload ReposStep _) as [e2|r]; [split; reflexivity|].
  destruct (payload EventsStep _) as [e3|ev]; split; reflexivity.
Qed.

Lemma views_published_stepwise_witness :
  map views
      (observable Sample.typed
         (fetchGitHubData Sample.enUS_toLocaleDateString
            Sample.enUS_getTime Sample.typed (Sample.refusing EventsStep)))
  = [ (None, [], [], []);
      (Some Sample.octocat, [], [], []);
      (Some Sample.octocat, Sample.octocat_repos,
       langStats Sample.octocat_repos, []);
      (None, [], [], []) ].
Proof.
  assert (Hname : username Sample.typed <> "") by discriminate.
  destruct (views_published_stepwise Sample.enUS_toLocaleDateString
              Sample.enUS_getTime Sample.typed (Sample.refusing EventsStep)
              Hname) as [Hstates _].
  exact Hstates.
Defined.

(** C4, as stated, fails on a cycle whose three steps succeed: while the
    repository request is pending the rendered state holds the profile
    of this cycle and no repository, which is neither what was published
    before the cycle nor what is published at its end. *)
Lemma profile_published_before_repositories :
  In (mkState "octocat" [] (Some Sample.octocat) [] [] true "")
     (observable Sample.typed
        (fetchGitHubData Sample.enUS_toLocaleDateString
           Sample.enUS_getTime Sample.typed Sample.online))
  /\ ~ atomic_publication Sample.enUS_toLocaleDateString
         Sample.enUS_getTime Sample.typed Sample.online.
Proof.
  assert (Hin :
    In (mkState "octocat" [] (Some Sample.octocat) [] [] true "")
       (observable Sample.typed
          (fetchGitHubData Sample.enUS_toLocaleDateString
             Sample.enUS_getTime Sample.typed Sample.online))).
  { right. left. reflexivity. }
  split; [exact Hin|].
  intros Hclaim. destruct (Hclaim _ Hin) as [Hold|Hnew]; discriminate.
Qed.

(* ================================================================== *)
(** * More about the aggregation *)

Section TallyOrder.
Import JsObject JsObjectFacts.
Implicit Types (acc : JsObject.t Z) (cs : list (string * Z)) (k : string).

Lemma weight_perm k cs cs' : Permutation cs cs' -> weight k cs = weight k cs'.
Proof.
  induction 1 as [|[k1 w1] cs cs' _ IH|[k1 w1] [k2 w2] cs|cs cs' cs'' _ IH1 _ IH2].
  - reflexivity.
  - rewrite !weight_cons. lia.
  - rewrite !weight_cons. lia.
  - congruence.
Qed.

Lemma tally_pairs cs k v :
  In (k, v) (tally cs []) <-> In k (map fst cs) /\ v = weight k cs.
Proof.
  split.
  - intros Hin. apply tally_In in Hin. tauto.
  - intros [Hk ->].
    assert (Hkeys : In k (keys (tally cs []))) by (apply tally_keys; now right).
    apply in_map_iff in Hkeys as [[k' v'] [Hfst Hin]]. simpl in Hfst. subst k'.
    pose proof (tally_In _ _ _ Hin) as [-> _]. exact Hin.
Qed.

Lemma tally_pairs_NoDup cs : NoDup (tally cs []).
Proof.
  apply NoDup_map_inv with (f := fst).
  apply (tally_NoDup cs []). constructor.
Qed.

(** The tally of a list of contributions does not depend on their order,
    up to the order of its own properties. *)
Lemma tally_perm cs cs' :
  Permutation cs cs' -> Permutation (tally cs []) (tally cs' []).
Proof.
  intros Hperm. apply NoDup_Permutation; try apply tally_pairs_NoDup.
  intros [k v]. rewrite !tally_pairs, (weight_perm k _ _ Hperm).
  split; intros [Hk Hv]; (split; [|assumption]).
  - eapply Permutation_in; [apply Permutation_map, Hperm|assumption].
  - eapply Permutation_in; [apply Permutation_map; symmetry; exact Hperm|assumption].
Qed.

Lemma tally_nil_inv cs : tally cs [] = [] -> cs = [].
Proof.
  destruct cs as [|[k w] cs]; [reflexivity|]. intros Hnil.
  assert (Hk : In k (keys (tally ((k, w) :: cs) []))).
  { apply tally_keys. right. now left. }
  rewrite Hnil in Hk. destruct Hk.
Qed.

Lemma keys_set_order acc k v :
  keys (set acc k v)
  = if existsb (String.eqb k) (keys acc) then keys acc
    else (keys acc ++ [k])%list.
Proof.
  unfold keys. induction acc as [|[k' v'] acc IH]; [reflexivity|].
  simpl. rewrite (String.eqb_sym k k').
  destruct (String.eqb k' k); simpl; [reflexivity|].
  rewrite IH. destruct (existsb (String.eqb k) (map fst acc)); reflexivity.
Qed.

Lemma filter_twice {A} (f g : A -> bool) (l : list A) :
  filter f (filter g l) = filter (fun x => g x && f x) l.
Proof.
  induction l as [|x l IH]; [reflexivity|].
  simpl. destruct (g x); simpl; [destruct (f x)|]; now rewrite IH.
Qed.

(** The own properties of a tally are created in the order in which the
    keys first occur among the contributions. *)
Lemma tally_keys_order cs acc :
  keys (tally cs acc)
  = (keys acc
     ++ filter (fun y => negb (existsb (String.eqb y) (keys acc)))
               (first_occurrences (map fst cs)))%list.
Proof.
  revert acc. induction cs as [|[k w] cs IH]; intros acc.
  - simpl. now rewrite app_nil_r.
  - rewrite tally_cons, IH, keys_set_order. simpl map. simpl first_occurrences.
    simpl filter. rewrite filter_twice.
    destruct (existsb (String.eqb k) (keys acc)) eqn:E; simpl.
    + f_equal. apply filter_ext_in. intros y _.
      destruct (String.eqb_spec k y) as [<-|Hne]; simpl; [now rewrite E|reflexivity].
    + rewrite <- app_assoc. simpl. do 2 f_equal.
      apply filter_ext_in. intros y _.
      rewrite existsb_app. simpl. rewrite orb_false_r, negb_orb.
      rewrite (String.eqb_sym y k). apply andb_comm.
Qed.
End TallyOrder.

Section SortOrder.
Context {A : Type}.
Variable comparefn : A -> A -> JsNumber.
Variable key : A -> Z.

(** Elements that the comparator orders strictly have different keys:
    then the elements of one key keep their relative order. *)
Hypothesis strict_differs :
  forall x y, 0 < SortCompare comparefn x y -> key x <> key y.

Lemma insert_stable (c : Z) (x : A) (l : list A) :
  filter (fun e => Z.eqb (key e) c) (insert comparefn x l)
  = filter (fun e => Z.eqb (key e) c) (x :: l).
Proof.
  induction l as [|y l IH]; [reflexivity|].
  simpl insert. destruct (Z.leb_spec (SortCompare comparefn x y) 0) as [_|Hgt];
    [reflexivity|].
  apply strict_differs in Hgt.
  simpl filter in *. rewrite IH.
  destruct (Z.eqb_spec (key x) c), (Z.eqb_spec (key y) c);
    try reflexivity. congruence.
Qed.

Lemma Array_sort_stable (c : Z) (l : list A) :
  filter (fun e => Z.eqb (key e) c) (Array_sort comparefn l)
  = filter (fun e => Z.eqb (key e) c) l.
Proof.
  induction l as [|x l IH]; [reflexivity|].
  simpl Array_sort. rewrite insert_stable. simpl. now rewrite IH.
Qed.
End SortOrder.

(** Two sorted lists with the same elements and no repeated key are the
    same list. *)
Lemma sorted_perm_unique {A} (key : A -> Z) (l l' : list A) :
  StronglySorted (fun a b => key a <= key b) l ->
  StronglySorted (fun a b => key a <= key b) l' ->
  Permutation l l' ->
  NoDup (map key l) ->
  l = l'.
Proof.
  revert l'. induction l as [|a l IH]; intros l' Hs Hs' Hperm Hnd.
  - now apply Permutation_nil in Hperm.
  - destruct l' as [|a' l'].
    { symmetry in Hperm. now apply Permutation_nil in Hperm. }
    inversion Hs as [|? ? Hsl Hal]; subst.
    inversion Hs' as [|? ? Hsl' Hal']; subst.
    inversion Hnd as [|? ? Hnotin Hndl]; subst.
    rewrite Forall_forall in Hal, Hal'.
    assert (Heq : a = a').
    { assert (Ha : In a (a' :: l')).
      { eapply Permutation_in; [exact Hperm|now left]. }
      assert (Ha' : In a' (a :: l)).
      { eapply Permutation_in; [symmetry; exact Hperm|now left]. }
      destruct Ha as [Ha|Ha]; [congruence|].
      destruct Ha' as [Ha'|Ha']; [assumption|].
      exfalso. apply Hnotin.
      pose proof (Hal _ Ha'). pose proof (Hal' _ Ha).
      replace (key a) with (key a') by lia. now apply in_map. }
    subst a'. f_equal. apply IH; try assumption.
    now apply Permutation_cons_inv in Hperm.
Qed.

Section HistogramOrder.
Import JsObject JsObjectFacts.

Lemma contributions_perm (reposData reposData' : list Repository.t) :
  Permutation reposData reposData' ->
  Permutation (language_contributions reposData)
              (language_contributions reposData').
Proof.
  intros Hperm. unfold language_contributions.
  now apply Permutation_flat_map.
Qed.

Lemma contributions_nil (reposData : list Repository.t) :
  language_contributions reposData = [] <-> filter has_language reposData = [].
Proof.
  induction reposData as [|repo reposData IH]; [tauto|].
  rewrite contributions_cons. simpl filter. rewrite has_language_eq.
  destruct (Repository.language repo) as [lang|]; [|exact IH].
  destruct (truthy lang); [|exact IH].
  simpl. split; discriminate.
Qed.

Lemma stat_names (o : JsObject.t Z) :
  map LanguageStats.name (map to_stat (as_numbers o)) = keys o.
Proof.
  unfold keys, as_numbers. rewrite !map_map. apply map_ext. now intros [k v].
Qed.

(** Entries whose keys are not array indices are enumerated as created. *)
Lemma entries_as_created {V} (o : JsObject.t V) :
  Forall (fun k => array_index k = None) (keys o) -> entries o = o.
Proof.
  intros Hkeys. apply entries_creation_order.
  apply forallb_forall. intros [k v] Hin.
  rewrite Forall_forall in Hkeys.
  unfold is_index. simpl. rewrite (Hkeys k); [reflexivity|].
  unfold keys. change k with (fst (k, v)). now apply in_map.
Qed.

Lemma first_occurrences_incl (l : list string) (x : string) :
  In x (first_occurrences l) -> In x l.
Proof.
  induction l as [|y l IH]; simpl; [tauto|].
  intros [Hx|Hx]; [now left|]. right. apply filter_In in Hx. tauto.
Qed.

(** Reading off a tally the keys whose value is [c]. *)
Lemma stats_of_count (cs : list (string * Z)) (c : Z) (o : JsObject.t Z) :
  Forall (fun p => snd p = weight (fst p) cs) o ->
  map LanguageStats.name
      (filter (fun e => Z.eqb (number (LanguageStats.count e)) c)
              (map to_stat (as_numbers o)))
  = filter (fun k => Z.eqb (weight k cs) c) (keys o).
Proof.
  induction o as [|[k v] o IH]; intros Hall; [reflexivity|].
  inversion Hall as [|? ? Hv Ho]; subst. simpl in Hv. subst v.
  simpl. destruct (Z.eqb (weight k cs) c); simpl; now rewrite IH.
Qed.

Lemma declared_languages_perm (reposData reposData' : list Repository.t) :
  Permutation reposData reposData' ->
  Permutation (declared_languages reposData) (declared_languages reposData').
Proof.
  intros Hperm. unfold declared_languages.
  now apply Permutation_map, contributions_perm.
Qed.
End HistogramOrder.

(** ** Further statements about the aggregation *)

(** X1. For every host and every event sequence, the counts of the
    activity series add up to the combined size of the push events. *)
Theorem activity_series_total
    (toLocaleDateString : string -> string) (getTime : string -> JsNumber)
    (eventsData : list Event.t) :
  sumZ (map CommitData.count
            (processedCommitData toLocaleDateString getTime eventsData))
  = sumZ (map Event.payload_size (filter isPushEvent eventsData)).
Proof.
  rewrite (sumZ_perm _ _
             (Permutation_map _
                (series_perm toLocaleDateString getTime eventsData))).
  replace (map CommitData.count
             (map to_point
                (tally (push_contributions toLocaleDateString eventsData) [])))
    with (map snd (tally (push_contributions toLocaleDateString eventsData) [])).
  - rewrite tally_total. unfold push_contributions. rewrite map_map.
    simpl. reflexivity.
  - rewrite map_map. apply map_ext. now intros [k v].
Qed.

(** X2. For every repository sequence in which no language is named
    like a member of [Object.prototype], the language histogram is empty
    exactly when no repository declares a language, in particular for an
    empty repository list. *)
Theorem language_histogram_empty_iff (reposData : list Repository.t) :
  plain_languages reposData ->
  (langStats reposData = [] <-> filter has_language reposData = []).
Proof.
  intros Hplain. rewrite <- contributions_nil. split.
  - intros Hnil. pose proof (langStats_perm _ Hplain) as Hperm.
    rewrite Hnil in Hperm. apply Permutation_nil in Hperm.
    apply map_eq_nil in Hperm. unfold as_numbers in Hperm.
    apply map_eq_nil in Hperm. now apply tally_nil_inv.
  - intros Hnil. unfold langStats.
    rewrite langMap_count_up. unfold declared_languages.
    rewrite Hnil. reflexivity.
Qed.

Lemma language_histogram_empty_iff_witness :
  langStats [Sample.repo 4 "notes" None; Sample.repo 7 "drafts" (Some "")]
  = [].
Proof.
  apply (language_histogram_empty_iff
           [Sample.repo 4 "notes" None; Sample.repo 7 "drafts" (Some "")]).
  - constructor.
  - reflexivity.
Defined.

(** X3. For every host, the activity series is empty exactly when the
    event sequence holds no push event, in particular when it is empty. *)
Theorem activity_series_empty_iff
    (toLocaleDateString : string -> string) (getTime : string -> JsNumber)
    (eventsData : list Event.t) :
  processedCommitData toLocaleDateString getTime eventsData = []
  <-> filter isPushEvent eventsData = [].
Proof.
  split.
  - intros Hnil.
    pose proof (series_perm toLocaleDateString getTime eventsData) as Hperm.
    rewrite Hnil in Hperm. apply Permutation_nil in Hperm.
    apply map_eq_nil, tally_nil_inv in Hperm.
    unfold push_contributions in Hperm. now apply map_eq_nil in Hperm.
  - intros Hnil. unfold processedCommitData, commitsByDate.
    rewrite Hnil. reflexivity.
Qed.

(** X4. The order in which the repositories are listed changes the
    language histogram at most in the order of its entries: the same
    languages with the same counts come out. *)
Theorem language_histogram_order_insensitive
    (reposData reposData' : list Repository.t) :
  Permutation reposData reposData' ->
  Permutation (langStats reposData) (langStats reposData').
Proof.
  intros Hperm. unfold langStats.
  rewrite !Array_sort_perm. apply Permutation_map.
  rewrite !JsObjectFacts.entries_perm, !langMap_count_up.
  now apply count_up_perm, declared_languages_perm.
Qed.

Lemma language_histogram_order_insensitive_witness :
  Permutation (langStats Sample.octocat_repos)
              (langStats (rev Sample.octocat_repos)).
Proof.
  apply (language_histogram_order_insensitive
           Sample.octocat_repos (rev Sample.octocat_repos)).
  apply Permutation_rev.
Defined.

(** X6. When no declared language is named like a member of
    [Object.prototype] or like an array index, the languages that share
    a count stand in the histogram in the order in which they first occur
    in the repository list. *)
Theorem language_histogram_ties_by_first_occurrence
    (reposData : list Repository.t) (c : Z) :
  plain_languages reposData ->
  Forall (fun l => JsObject.array_index l = None)
         (declared_languages reposData) ->
  map LanguageStats.name
      (filter (fun e => Z.eqb (number (LanguageStats.count e)) c)
              (langStats reposData))
  = filter (fun l => Z.eqb (declared_by l reposData) c)
           (first_occurrences (declared_languages reposData)).
Proof.
  intros Hplain Hnames.
  set (cs := language_contributions reposData).
  assert (Hkeys : JsObject.keys (tally cs []) = first_occurrences (map fst cs)).
  { rewrite tally_keys_order. simpl.
    induction (first_occurrences (map fst cs)) as [|x l IH];
      simpl; congruence. }
  unfold langStats.
  rewrite (Array_sort_stable _ (fun e => number (LanguageStats.count e))).
  - rewrite (langMap_plain _ Hplain). fold cs.
    rewrite entries_as_created.
    + rewrite (stats_of_count cs).
      * rewrite Hkeys. apply filter_ext. intros l.
        unfold declared_by, cs. now rewrite contributions_weight.
      * apply Forall_forall. intros [k v] Hin.
        apply tally_In in Hin. simpl. tauto.
    + rewrite keys_as_numbers, Hkeys. apply Forall_forall. intros k Hk.
      rewrite Forall_forall in Hnames. apply Hnames.
      now apply first_occurrences_incl.
  - intros x y. unfold SortCompare.
    destruct (LanguageStats.count x), (LanguageStats.count y); simpl; lia.
Qed.

Lemma language_histogram_ties_by_first_occurrence_witness :
  map LanguageStats.name
      (filter (fun e => Z.eqb (number (LanguageStats.count e)) 1)
              (langStats Scenario.polyglot))
  = ["TypeScript"; "Rust"].
Proof.
  rewrite (language_histogram_ties_by_first_occurrence Scenario.polyglot 1).
  - reflexivity.
  - repeat constructor.
  - repeat constructor.
Defined.

Lemma filter_perm {A} (f : A -> bool) (l l' : list A) :
  Permutation l l' -> Permutation (filter f l) (filter f l').
Proof.
  induction 1 as [|x l l' _ IH|x y l|l l' l'' _ IH1 _ IH2]; simpl.
  - constructor.
  - destruct (f x); [now constructor|assumption].
  - destruct (f x), (f y); try reflexivity. apply perm_swap.
  - now transitivity (filter f l').
Qed.

Section SeriesOrder.
Import JsObject JsObjectFacts.
Variable toLocaleDateString : string -> string.
Variable getTime : string -> JsNumber.

Lemma push_contributions_perm (eventsData eventsData' : list Event.t) :
  Permutation eventsData eventsData' ->
  Permutation (push_contributions toLocaleDateString eventsData)
              (push_contributions toLocaleDateString eventsData').
Proof.
  intros Hperm. unfold push_contributions.
  now apply Permutation_map, filter_perm.
Qed.

Lemma push_dates (eventsData : list Event.t) :
  map fst (push_contributions toLocaleDateString eventsData)
  = map (event_date toLocaleDateString) (filter isPushEvent eventsData).
Proof.
  unfold push_contributions. rewrite map_map. reflexivity.
Qed.

Lemma series_dates_readable (eventsData : list Event.t) :
  dates_readable toLocaleDateString getTime eventsData ->
  Forall (fun d => getTime d <> NaN)
         (map fst (push_contributions toLocaleDateString eventsData)).
Proof.
  unfold dates_readable. rewrite push_dates, !Forall_forall.
  intros Hreadable d Hd.
  apply in_map_iff in Hd as [e [<- He]]. apply filter_In in He as [He Hpush].
  now apply Hreadable.
Qed.

Lemma series_points_readable (eventsData : list Event.t) :
  dates_readable toLocaleDateString getTime eventsData ->
  Forall (fun p => instant getTime p <> NaN)
         (processedCommitData toLocaleDateString getTime eventsData).
Proof.
  intros Hreadable.
  eapply Permutation_Forall; [symmetry; apply series_perm|].
  apply series_dates_readable in Hreadable.
  rewrite Forall_forall in *. intros p Hp.
  apply in_map_iff in Hp as [[k v] [<- Hin]].
  apply tally_In in Hin as [_ Hk]. unfold instant. simpl. now apply Hreadable.
Qed.

Lemma series_sorted_by_key (eventsData : list Event.t) :
  dates_readable toLocaleDateString getTime eventsData ->
  StronglySorted (fun a b => point_key getTime a <= point_key getTime b)
    (processedCommitData toLocaleDateString getTime eventsData).
Proof.
  intros Hreadable.
  pose proof (series_points_readable _ Hreadable) as HP.
  unfold processedCommitData in *.
  apply Array_sort_sorted
    with (P := fun p => instant getTime p <> NaN)
         (key := point_key getTime).
  - intros x y Px Py.
    unfold SortCompare, js_sub, point_key, date_key, instant in *.
    destruct (getTime (CommitData.date x)); [|now elim Px].
    destruct (getTime (CommitData.date y)); [|now elim Py].
    lia.
  - eapply Permutation_Forall; [apply Array_sort_perm|exact HP].
Qed.

Lemma series_keys_distinct (eventsData : list Event.t) :
  dates_readable toLocaleDateString getTime eventsData ->
  (forall d1 d2,
     In d1 (map (event_date toLocaleDateString)
                (filter isPushEvent eventsData)) ->
     In d2 (map (event_date toLocaleDateString)
                (filter isPushEvent eventsData)) ->
     getTime d1 = getTime d2 -> d1 = d2) ->
  NoDup (map (point_key getTime)
             (processedCommitData toLocaleDateString getTime eventsData)).
Proof.
  intros Hreadable Hinj.
  eapply Permutation_NoDup.
  { apply Permutation_map. symmetry. apply series_perm. }
  rewrite map_map.
  replace (map (fun x => point_key getTime (to_point x))
               (tally (push_contributions toLocaleDateString eventsData) []))
    with (map (date_key getTime)
              (keys (tally (push_contributions toLocaleDateString eventsData)
                           []))).
  2:{ unfold keys. rewrite map_map. apply map_ext. now intros [k v]. }
  apply NoDup_map_NoDup_ForallPairs; [|apply tally_NoDup; constructor].
  apply series_dates_readable in Hreadable.
  rewrite Forall_forall in Hreadable.
  intros d1 d2 H1 H2 Hkey.
  apply tally_keys in H1 as [[]|H1]. apply tally_keys in H2 as [[]|H2].
  pose proof (Hreadable _ H1) as R1. pose proof (Hreadable _ H2) as R2.
  rewrite push_dates in H1, H2. apply Hinj; try assumption.
  unfold date_key in Hkey.
  destruct (getTime d1); [|now elim R1].
  destruct (getTime d2); [|now elim R2].
  congruence.
Qed.

End SeriesOrder.

(** X5. On a host that reads every push date back as an instant, and
    different dates as different instants, the activity series does not
    depend on the order of the events: reordering the events gives the
    same series. *)
Theorem activity_series_order_independent
    (toLocaleDateString : string -> string) (getTime : string -> JsNumber)
    (eventsData eventsData' : list Event.t) :
  Permutation eventsData eventsData' ->
  dates_readable toLocaleDateString getTime eventsData ->
  (forall d1 d2,
     In d1 (map (event_date toLocaleDateString)
                (filter isPushEvent eventsData)) ->
     In d2 (map (event_date toLocaleDateString)
                (filter isPushEvent eventsData)) ->
     getTime d1 = getTime d2 -> d1 = d2) ->
  processedCommitData toLocaleDateString getTime eventsData'
  = processedCommitData toLocaleDateString getTime eventsData.
Proof.
  intros Hperm Hreadable Hinj. symmetry.
  apply sorted_perm_unique with (key := point_key getTime).
  - now apply series_sorted_by_key.
  - apply series_sorted_by_key. unfold dates_readable in *.
    eapply Permutation_Forall; [exact Hperm|exact Hreadable].
  - rewrite (series_perm _ _ eventsData), (series_perm _ _ eventsData').
    now apply Permutation_map, tally_perm, push_contributions_perm.
  - now apply series_keys_distinct.
Qed.

Lemma activity_series_order_independent_witness :
  processedCommitData Sample.enUS_toLocaleDateString Sample.enUS_getTime
    Scenario.feed_reversed
  = processedCommitData Sample.enUS_toLocaleDateString Sample.enUS_getTime
      Sample.feed.
Proof.
  apply (activity_series_order_independent
           Sample.enUS_toLocaleDateString Sample.enUS_getTime
           Sample.feed Scenario.feed_reversed).
  - apply (Permutation_rev Sample.feed).
  - unfold dates_readable, Sample.feed.
    repeat constructor; intros _; discriminate.
  - intros d1 d2 H1 H2.
    simpl in H1, H2.
    destruct H1 as [<-|[<-|[<-|[]]]]; destruct H2 as [<-|[<-|[<-|[]]]];
      intros Heq; try reflexivity; discriminate Heq.
Defined.

(* ================================================================== *)
(** * More about the query cycle *)

Lemma perform_username (s : AppState) (e : Effect) :
  username (perform s e) = username s.
Proof. destruct e; reflexivity. Qed.

Lemma run_username (s : AppState) (effects : list Effect) :
  username (run s effects) = username s.
Proof.
  revert s. induction effects as [|e effects IH]; intros s; [reflexivity|].
  change (run s (e :: effects)) with (run (perform s e) effects).
  now rewrite IH, perform_username.
Qed.

Lemma effects_by_username
    (toLocaleDateString : string -> string) (getTime : string -> JsNumber)
    (s s' : AppState) (net : Upstream) :
  username s' = username s ->
  fetchGitHubData toLocaleDateString getTime s' net
  = fetchGitHubData toLocaleDateString getTime s net.
Proof.
  intros Heq. unfold fetchGitHubData. now rewrite Heq.
Qed.

(** X7. A cycle with a non-empty identifier issues its requests one
    after the other and stops at the first step that fails: the profile
    request always, the repository request only once the profile step has
    succeeded, the event request only once both have; never more than
    three requests. *)
Theorem requests_stop_at_first_failure
    (toLocaleDateString : string -> string) (getTime : string -> JsNumber)
    (s : AppState) (net : Upstream) :
  username s <> "" ->
  let u := username s in
  let asked := requests (fetchGitHubData toLocaleDateString getTime s net) in
  asked
  = match payload ProfileStep (fetch_profile net (profile_url u)) with
    | inl _ => [profile_url u]
    | inr _ =>
        match payload ReposStep (fetch_repos net (repos_url u)) with
        | inl _ => [profile_url u; repos_url u]
        | inr _ => [profile_url u; repos_url u; events_url u]
        end
    end
  /\ (1 <= List.length asked <= 3)%nat.
Proof.
  intros Hname u asked. subst u asked.
  start_cycle Hname.
  destruct (payload ProfileStep _) as [e1|p]; [simpl; split; [reflexivity|lia]|].
  destruct (payload ReposStep _) as [e2|r]; [simpl; split; [reflexivity|lia]|].
  destruct (payload EventsStep _) as [e3|ev]; simpl; split;
    try reflexivity; lia.
Qed.

Lemma requests_stop_at_first_failure_witness :
  requests (fetchGitHubData Sample.enUS_toLocaleDateString
              Sample.enUS_getTime Sample.typed (Sample.refusing ReposStep))
  = [ "https://api.github.com/users/octocat";
      "https://api.github.com/users/octocat/repos?sort=updated&per_page=100" ].
Proof.
  assert (Hname : username Sample.typed <> "") by discriminate.
  destruct (requests_stop_at_first_failure Sample.enUS_toLocaleDateString
              Sample.enUS_getTime Sample.typed (Sample.refusing ReposStep)
              Hname) as [Hasked _].
  exact Hasked.
Defined.

(** X8. The state in which a cycle with a non-empty identifier ends,
    when it runs on its own, depends on the identifier and on the
    answers of the upstream only, not on what the state held before:
    nothing of an earlier query survives.  In particular, running such a
    cycle again with the same answers leaves the state as the first run
    left it. *)
Theorem completed_cycle_forgets_history
    (toLocaleDateString : string -> string) (getTime : string -> JsNumber)
    (s s' : AppState) (net : Upstream) :
  username s <> "" ->
  username s' = username s ->
  let cycle := fun x => run x (fetchGitHubData toLocaleDateString getTime x net) in
  cycle s' = cycle s /\ cycle (cycle s) = cycle s.
Proof.
  intros Hname Heq cycle.
  assert (Hforget : forall x, username x = username s -> cycle x = cycle s).
  { intros x Hx. subst cycle. simpl.
    rewrite (effects_by_username _ _ s x net Hx).
    start_cycle Hname.
    destruct (payload ProfileStep _) as [e1|p];
      [|destruct (payload ReposStep _) as [e2|r];
        [|destruct (payload EventsStep _) as [e3|ev]]];
      simpl; now rewrite Hx. }
  split; [now apply Hforget|].
  apply Hforget. apply run_username.
Qed.

Lemma completed_cycle_forgets_history_witness :
  run Scenario.loaded
      (fetchGitHubData Sample.enUS_toLocaleDateString Sample.enUS_getTime
         Scenario.loaded (Sample.refusing ProfileStep))
  = run Sample.typed
        (fetchGitHubData Sample.enUS_toLocaleDateString Sample.enUS_getTime
           Sample.typed (Sample.refusing ProfileStep)).
Proof.
  assert (Hname : username Sample.typed <> "") by discriminate.
  apply (completed_cycle_forgets_history Sample.enUS_toLocaleDateString
           Sample.enUS_getTime Sample.typed Scenario.loaded
           (Sample.refusing ProfileStep) Hname eq_refl).
Defined.

(* ================================================================== *)
(** * What is rendered along a cycle *)

Section RenderFacts.
Variable formatDate : string -> string.
Variable toUpperCase : string -> string.

Lemma badge_iff_language (repo : Repository.t) :
  language_badge (repo_card formatDate repo)
  = if has_language repo then Repository.language repo else None.
Proof.
  unfold repo_card, when_truthy. simpl. rewrite has_language_eq.
  destruct (Repository.language repo) as [lang|]; [|reflexivity].
  destruct (truthy lang); reflexivity.
Qed.

Lemma badge_of_language (l : string) (repo : Repository.t) :
  match language_badge (repo_card formatDate repo) with
  | Some b => String.eqb b l
  | None => false
  end = declares l repo.
Proof.
  rewrite badge_iff_language, has_language_eq, declares_eq.
  destruct (Repository.language repo) as [lang|]; [|reflexivity].
  destruct (truthy lang); reflexivity.
Qed.

Lemma filter_map_length {A B} (f : A -> B) (p : B -> bool) (l : list A) :
  List.length (filter p (map f l))
  = List.length (filter (fun x => p (f x)) l).
Proof.
  induction l as [|x l IH]; [reflexivity|].
  simpl. destruct (p (f x)); simpl; now rewrite IH.
Qed.
End RenderFacts.

(** X9. For a cycle that runs on its own: in every state rendered while
    one of its requests is pending, the search button is disabled and
    reads as loading, the skeleton stands in place of the profile grid,
    no error paragraph is shown, whatever error the state held before the
    cycle, and the input still holds the identifier. *)
Theorem pending_view_is_loading
    (toLocaleDateString : string -> string) (getTime : string -> JsNumber)
    (formatDate toUpperCase : string -> string)
    (s : AppState) (net : Upstream) :
  username s <> "" ->
  Forall
    (fun s' =>
       let v := render formatDate toUpperCase s' in
       input_value v = username s
       /\ button_disabled v = true
       /\ button_content v = LoadingLabel
       /\ error_paragraph v = None
       /\ main_area v = Skeletons)
    (removelast
       (observable s (fetchGitHubData toLocaleDateString getTime s net))).
Proof.
  intros Hname. start_cycle Hname.
  destruct (payload ProfileStep _) as [e1|p];
    [|destruct (payload ReposStep _) as [e2|r];
      [|destruct (payload EventsStep _) as [e3|ev]]];
    simpl; repeat constructor.
Qed.

Lemma pending_view_is_loading_witness :
  Forall
    (fun s' =>
       main_area (render Scenario.formatDate Scenario.toUpperCase s')
       = Skeletons)
    (removelast
       (observable Scenario.loaded
          (fetchGitHubData Sample.enUS_toLocaleDateString
             Sample.enUS_getTime Scenario.loaded Sample.online))).
Proof.
  assert (Hname : username Scenario.loaded <> "") by discriminate.
  eapply Forall_impl;
    [|exact (pending_view_is_loading Sample.enUS_toLocaleDateString
               Sample.enUS_getTime Scenario.formatDate Scenario.toUpperCase
               Scenario.loaded Sample.online Hname)].
  intros s' H. apply H.
Defined.

(** X10. After a cycle in which a step fails, the view is the search bar
    with the button enabled again and the text of what was thrown (when
    that text is not empty) in the error paragraph; neither the skeleton,
    nor the profile grid, nor the tabs are rendered. *)
Theorem failed_cycle_view
    (toLocaleDateString : string -> string) (getTime : string -> JsNumber)
    (formatDate toUpperCase : string -> string)
    (s : AppState) (net : Upstream) (err : Thrown) :
  username s <> "" ->
  cycle_result (username s) net = inl err ->
  render formatDate toUpperCase
    (run s (fetchGitHubData toLocaleDateString getTime s net))
  = mkView (username s) false SearchIcon
           (if truthy (message_of err) then Some (message_of err) else None)
           NoMain None.
Proof.
  intros Hname Hfail. unfold cycle_result in Hfail.
  start_cycle Hname.
  destruct (payload ProfileStep _) as [e1|p];
    [|destruct (payload ReposStep _) as [e2|r];
      [|destruct (payload EventsStep _) as [e3|ev]]];
    inversion Hfail; subst; reflexivity.
Qed.

Lemma failed_cycle_view_witness :
  render Scenario.formatDate Scenario.toUpperCase
    (run Scenario.loaded
       (fetchGitHubData Sample.enUS_toLocaleDateString Sample.enUS_getTime
          Scenario.loaded (Sample.refusing EventsStep)))
  = mkView "octocat" false SearchIcon
           (Some "Failed to fetch commit data") NoMain None.
Proof.
  assert (Hname : username Scenario.loaded <> "") by discriminate.
  apply (failed_cycle_view Sample.enUS_toLocaleDateString
           Sample.enUS_getTime Scenario.formatDate Scenario.toUpperCase
           Scenario.loaded (Sample.refusing EventsStep)
           (ErrorObject "Failed to fetch commit data") Hname eq_refl).
Defined.

(** X11. After a cycle that runs on its own and whose three steps
    succeed, the view shows no error paragraph, the profile card of the fetched profile beside the
    histogram of the fetched repositories, and the tabs with the series
    of the fetched events and one card for each fetched repository, in
    the order of the response, under a caption that counts them. *)
Theorem successful_cycle_view
    (toLocaleDateString : string -> string) (getTime : string -> JsNumber)
    (formatDate toUpperCase : string -> string)
    (s : AppState) (net : Upstream)
    (p : UserProfile.t) (r : list Repository.t) (ev : list Event.t) :
  username s <> "" ->
  cycle_result (username s) net = inr (p, r, ev) ->
  render formatDate toUpperCase
    (run s (fetchGitHubData toLocaleDateString getTime s net))
  = mkView (username s) false SearchIcon None
      (ProfileGrid (profile_card formatDate toUpperCase p) (langStats r))
      (Some (mkTabsView
               (processedCommitData toLocaleDateString getTime ev)
               (List.length r)
               (map (repo_card formatDate) r))).
Proof.
  intros Hname Hok. unfold cycle_result in Hok.
  start_cycle Hname.
  destruct (payload ProfileStep _) as [e1|p'];
    [|destruct (payload ReposStep _) as [e2|r'];
      [|destruct (payload EventsStep _) as [e3|ev']]];
    inversion Hok; subst; reflexivity.
Qed.

Lemma successful_cycle_view_witness :
  main_area
    (render Scenario.formatDate Scenario.toUpperCase
       (run Sample.typed
          (fetchGitHubData Sample.enUS_toLocaleDateString
             Sample.enUS_getTime Sample.typed Sample.online)))
  = ProfileGrid
      (mkProfileCard "https://avatars.githubusercontent.com/u/583231"
         "The Octocat" "OC" "The Octocat" "@octocat" None 100 9
         "January 25, 2011")
      [LanguageStats.mk "Go" (Num 2); LanguageStats.mk "TypeScript" (Num 1)].
Proof.
  assert (Hname : username Sample.typed <> "") by discriminate.
  rewrite (successful_cycle_view Sample.enUS_toLocaleDateString
             Sample.enUS_getTime Scenario.formatDate Scenario.toUpperCase
             Sample.typed Sample.online Sample.octocat Sample.octocat_repos
             Sample.feed Hname eq_refl).
  reflexivity.
Defined.

(** X12. For a cycle that runs on its own, the tabs do not wait for the
    cycle to end: while its profile request is pending they are rendered
    as before the cycle (a profile held from an earlier query keeps them
    on screen), and once the profile step has succeeded, while the
    repository request is pending, they are rendered with the series and
    the repositories from before the cycle. *)
Theorem tabs_show_earlier_data_while_pending
    (toLocaleDateString : string -> string) (getTime : string -> JsNumber)
    (formatDate toUpperCase : string -> string)
    (s : AppState) (net : Upstream) (p : UserProfile.t) :
  username s <> "" ->
  payload ProfileStep (fetch_profile net (profile_url (username s))) = inr p ->
  let shown :=
    map (fun s' => tabs (render formatDate toUpperCase s'))
        (observable s (fetchGitHubData toLocaleDateString getTime s net)) in
  nth_error shown 0 = Some (tabs (render formatDate toUpperCase s))
  /\ nth_error shown 1
     = Some (Some (mkTabsView (commitData s) (List.length (repos s))
                              (map (repo_card formatDate) (repos s)))).
Proof.
  intros Hname Hprofile shown. subst shown.
  start_cycle Hname. rewrite Hprofile.
  destruct (payload ReposStep _) as [e2|r];
    [|destruct (payload EventsStep _) as [e3|ev]];
    split; reflexivity.
Qed.

Lemma tabs_show_earlier_data_while_pending_witness :
  nth_error
    (map (fun s' => tabs (render Scenario.formatDate Scenario.toUpperCase s'))
         (observable Sample.typed
            (fetchGitHubData Sample.enUS_toLocaleDateString
               Sample.enUS_getTime Sample.typed Sample.online))) 1
  = Some (Some (mkTabsView [] 0 [])).
Proof.
  assert (Hname : username Sample.typed <> "") by discriminate.
  destruct (tabs_show_earlier_data_while_pending
              Sample.enUS_toLocaleDateString Sample.enUS_getTime
              Scenario.formatDate Scenario.toUpperCase
              Sample.typed Sample.online Sample.octocat Hname eq_refl)
    as [_ Hsecond].
  exact Hsecond.
Defined.

(** X13. For every repository sequence in which no language is named
    like a member of [Object.prototype], the repository list and the
    histogram agree: each entry of the histogram counts the repository
    cards that carry its language as a badge, and the counts of the
    histogram add up to the number of cards that carry a badge. *)
Theorem badges_agree_with_histogram
    (formatDate : string -> string) (reposData : list Repository.t) :
  plain_languages reposData ->
  let rendered := map (repo_card formatDate) reposData in
  Forall
    (fun e =>
       LanguageStats.count e
       = Num (Z.of_nat
                (List.length
                   (filter (fun c => match language_badge c with
                                     | Some b =>
                                         String.eqb b (LanguageStats.name e)
                                     | None => false
                                     end)
                           rendered))))
    (langStats reposData)
  /\ exists counts : list Z,
       map LanguageStats.count (langStats reposData) = map Num counts
       /\ sumZ counts
          = Z.of_nat
              (List.length
                 (filter (fun c => match language_badge c with
                                   | Some _ => true
                                   | None => false
                                   end)
                         rendered)).
Proof.
  intros Hplain rendered. subst rendered. split.
  - eapply Forall_impl; [|exact (langStats_entries _ Hplain)].
    intros e [_ Hcount]. rewrite Hcount, filter_map_length. do 3 f_equal.
    apply filter_ext. intros repo. cbv beta. symmetry.
    apply badge_of_language.
  - exists (map (fun e => number (LanguageStats.count e)) (langStats reposData)).
    split; [apply numbers_of_counts; now apply langStats_numeric|].
    rewrite (sumZ_perm _ _ (Permutation_map _ (langStats_perm _ Hplain))).
    rewrite stat_count_total, tally_total, contributions_total.
    rewrite filter_map_length. simpl. do 2 f_equal.
    apply filter_ext. intros repo. cbv beta.
    unfold when_truthy. rewrite has_language_eq.
    destruct (Repository.language repo) as [lang|]; [|reflexivity].
    destruct (truthy lang); reflexivity.
Qed.

Lemma badges_agree_with_histogram_witness :
  Forall
    (fun e =>
       LanguageStats.count e
       = Num (Z.of_nat
                (List.length
                   (filter (fun c => match language_badge c with
                                     | Some b =>
                                         String.eqb b (LanguageStats.name e)
                                     | None => false
                                     end)
                           (map (repo_card Scenario.formatDate)
                                Sample.octocat_repos)))))
    (langStats Sample.octocat_repos).
Proof.
  apply (badges_agree_with_histogram Scenario.formatDate
           Sample.octocat_repos).
  repeat constructor.
Defined.

(* ================================================================== *)
(** * Sessions *)

Section SessionFacts.
Variable toLocaleDateString : string -> string.
Variable getTime : string -> JsNumber.

Lemma quiet_loading (s : AppState) (e : Effect) :
  quiet [e] = true -> loading (perform s e) = loading s.
Proof.
  destruct e; simpl; try reflexivity. discriminate.
Qed.

(** Resuming a suspended handler: either it is suspended again, the flag
    as it was, or it ends and leaves the flag down. *)
Lemma advance_continuation (s : AppState) (k : list Effect) :
  continuation k ->
  match advance s k with
  | (s', Some rest) => loading s' = loading s /\ continuation rest
  | (s', None) => loading s' = false
  end.
Proof.
  intros [mid [-> Hquiet]]. revert s.
  induction mid as [|e mid IH]; intros s; [reflexivity|].
  simpl in Hquiet. apply andb_true_iff in Hquiet as [He Hmid].
  destruct e; try discriminate He; simpl.
  - split; [reflexivity|]. now exists mid.
  - specialize (IH Hmid (perform s (setRepos v))).
    destruct (advance _ _) as [s' [rest|]]; exact IH.
  - specialize (IH Hmid (perform s (setProfile v))).
    destruct (advance _ _) as [s' [rest|]]; exact IH.
  - specialize (IH Hmid (perform s (setCommitData v))).
    destruct (advance _ _) as [s' [rest|]]; exact IH.
  - specialize (IH Hmid (perform s (setLanguageStats v))).
    destruct (advance _ _) as [s' [rest|]]; exact IH.
  - specialize (IH Hmid (perform s (setError v))).
    destruct (advance _ _) as [s' [rest|]]; exact IH.
Qed.

(** A call of the handler: nothing happens for an empty identifier;
    otherwise the flag goes up and the handler is suspended. *)
Lemma launch_cases (net : Upstream) (x : Session) :
  (username (current x) = ""
   /\ launch toLocaleDateString getTime net x = x)
  \/ (exists s' k,
        launch toLocaleDateString getTime net x
        = mkSession s' (pending x ++ [k])
        /\ loading s' = true /\ continuation k).
Proof.
  destruct (string_dec (username (current x)) "") as [Hempty|Hname].
  - left. split; [assumption|]. unfold launch, fetchGitHubData.
    rewrite Hempty. simpl. now destruct x.
  - right. unfold launch. start_cycle Hname.
    destruct (payload ProfileStep _) as [e1|p];
      [|destruct (payload ReposStep _) as [e2|r];
        [|destruct (payload EventsStep _) as [e3|ev]]];
      simpl; eexists; eexists; (split; [reflexivity|]);
      (split; [reflexivity|]).
    + exists (catch_block e1). split; reflexivity.
    + exists (setProfile (Some p) :: Request (repos_url (username (current x)))
              :: catch_block e2). split; reflexivity.
    + exists (setProfile (Some p) :: Request (repos_url (username (current x)))
              :: setRepos r :: setLanguageStats (langStats r)
              :: Request (events_url (username (current x)))
              :: catch_block e3). split; reflexivity.
    + exists [ setProfile (Some p); Request (repos_url (username (current x)));
               setRepos r; setLanguageStats (langStats r);
               Request (events_url (username (current x)));
               setCommitData
                 (processedCommitData toLocaleDateString getTime ev) ].
      split; reflexivity.
Qed.

Lemma launch_success (net : Upstream) (x : Session)
    (p : UserProfile.t) (r : list Repository.t) (ev : list Event.t) :
  username (current x) <> "" ->
  cycle_result (username (current x)) net = inr (p, r, ev) ->
  launch toLocaleDateString getTime net x
  = mkSession
      (perform (perform (current x) (setLoading true)) (setError ""))
      (pending x
       ++ [after_profile_request toLocaleDateString getTime
             (username (current x)) p r ev]).
Proof.
  intros Hname Hok. unfold cycle_result in Hok.
  unfold launch. start_cycle Hname.
  destruct (payload ProfileStep _) as [e1|p'];
    [|destruct (payload ReposStep _) as [e2|r'];
      [|destruct (payload EventsStep _) as [e3|ev']]];
    inversion Hok; subst; reflexivity.
Qed.

Lemma launch_failed_profile (net : Upstream) (x : Session) (err : Thrown) :
  username (current x) <> "" ->
  payload ProfileStep (fetch_profile net (profile_url (username (current x))))
  = inl err ->
  launch toLocaleDateString getTime net x
  = mkSession
      (perform (perform (current x) (setLoading true)) (setError ""))
      (pending x ++ [after_failed_profile err]).
Proof.
  intros Hname Hfail. unfold launch. start_cycle Hname.
  rewrite Hfail. reflexivity.
Qed.

Lemma replace_nth_Forall {A} (P : A -> Prop) (i : nat) (x : A) (l : list A) :
  P x -> Forall P l -> Forall P (replace_nth i x l).
Proof.
  intros Px. revert i.
  induction l as [|y l IH]; intros i Hall; [destruct i; constructor|].
  inversion Hall; subst. destruct i; simpl; constructor; auto.
Qed.

Lemma remove_nth_Forall {A} (P : A -> Prop) (i : nat) (l : list A) :
  Forall P l -> Forall P (remove_nth i l).
Proof.
  revert i.
  induction l as [|y l IH]; intros i Hall; [destruct i; constructor|].
  inversion Hall; subst. destruct i; simpl; [assumption|].
  constructor; auto.
Qed.

Lemma replace_nth_nonempty {A} (i : nat) (x k : A) (l : list A) :
  nth_error l i = Some k -> replace_nth i x l <> [].
Proof.
  destruct l as [|y l]; destruct i; simpl; discriminate.
Qed.

Lemma launch_keeps_idle (net : Upstream) (x : Session) :
  settled_means_idle x ->
  settled_means_idle (launch toLocaleDateString getTime net x).
Proof.
  intros [Hall Hidle].
  destruct (launch_cases net x) as [[_ ->]|[s' [k [-> [Hup Hk]]]]].
  - now split.
  - split; simpl.
    + apply Forall_app. split; [assumption|now constructor].
    + intros Hnil. now apply app_eq_nil in Hnil as [_ Hnil].
Qed.

Lemma step_keeps_idle (x : Session) (a : Action) :
  settled_means_idle x ->
  settled_means_idle (step toLocaleDateString getTime x a).
Proof.
  intros Hinv. destruct a as [value|key net|net|i]; simpl.
  - exact Hinv.
  - destruct (String.eqb key "Enter"); [now apply launch_keeps_idle|exact Hinv].
  - destruct (loading (current x)); [exact Hinv|now apply launch_keeps_idle].
  - destruct Hinv as [Hall Hidle]. unfold settle.
    destruct (nth_error (pending x) i) as [k|] eqn:Hnth; [|now split].
    assert (Hk : continuation k).
    { rewrite Forall_forall in Hall. eapply Hall, nth_error_In, Hnth. }
    pose proof (advance_continuation (current x) k Hk) as Hadv.
    destruct (advance (current x) k) as [s' [rest|]]; split; simpl.
    + apply replace_nth_Forall; tauto.
    + intros Hnil. now apply replace_nth_nonempty with (x := rest) in Hnth.
    + now apply remove_nth_Forall.
    + intros _. exact Hadv.
Qed.

Lemma step_keeps_one_at_a_time (x : Session) (a : Action) :
  by_button a = true ->
  one_at_a_time x ->
  one_at_a_time (step toLocaleDateString getTime x a).
Proof.
  intros Hbutton (Hall & Hlen & Hflag).
  destruct a as [value|key net|net|i]; simpl in *.
  - repeat split; tauto.
  - apply negb_true_iff in Hbutton. rewrite Hbutton. repeat split; tauto.
  - destruct (loading (current x)) eqn:Hloading; [repeat split; tauto|].
    assert (Hnone : pending x = []).
    { destruct (pending x) as [|k l]; [reflexivity|].
      assert (false = true) by (apply Hflag; discriminate). discriminate. }
    destruct (launch_cases net x) as [[_ ->]|[s' [k [-> [Hup Hk]]]]].
    + unfold one_at_a_time. rewrite Hloading. tauto.
    + unfold one_at_a_time. rewrite Hnone. simpl. repeat split.
      * now constructor.
      * lia.
      * discriminate.
      * intros _. exact Hup.
  - unfold settle.
    destruct (nth_error (pending x) i) as [k|] eqn:Hnth;
      [|repeat split; tauto].
    destruct (pending x) as [|k0 [|k1 l]] eqn:Hpending;
      [destruct i; discriminate| |simpl in Hlen; lia].
    destruct i as [|i]; [|destruct i; discriminate].
    simpl in Hnth. inversion Hnth; subst k0.
    assert (Hk : continuation k) by now inversion Hall.
    pose proof (advance_continuation (current x) k Hk) as Hadv.
    assert (Hloading : loading (current x) = true)
      by (apply Hflag; discriminate).
    destruct (advance (current x) k) as [s' [rest|]]; simpl.
    + destruct Hadv as [Hsame Hrest]. unfold one_at_a_time. simpl.
      repeat split.
      * now constructor.
      * lia.
      * discriminate.
      * intros _. congruence.
    + unfold one_at_a_time. simpl. repeat split.
      * constructor.
      * lia.
      * congruence.
      * intros Hne. now elim Hne.
Qed.
End SessionFacts.

Lemma session_keeps_one_at_a_time
    (toLocaleDateString : string -> string) (getTime : string -> JsNumber)
    (actions : list Action) (x : Session) :
  forallb by_button actions = true ->
  one_at_a_time x ->
  one_at_a_time (fold_left (step toLocaleDateString getTime) actions x).
Proof.
  revert x. induction actions as [|a actions IH]; intros x Hall Hinv;
    [exact Hinv|].
  simpl in Hall. apply andb_true_iff in Hall as [Ha Hall].
  simpl. apply IH; [assumption|]. now apply step_keeps_one_at_a_time.
Qed.

Lemma session_keeps_idle
    (toLocaleDateString : string -> string) (getTime : string -> JsNumber)
    (actions : list Action) (x : Session) :
  settled_means_idle x ->
  settled_means_idle (fold_left (step toLocaleDateString getTime) actions x).
Proof.
  revert x. induction actions as [|a actions IH]; intros x Hinv;
    [exact Hinv|].
  simpl. apply IH. now apply step_keeps_idle.
Qed.

(** ** Statements *)

(** X14. As long as queries are submitted with the button and not with
    the Enter key, whatever is typed and in whatever order the requests
    settle, at most one call of the handler is in flight, and the loading
    flag is up exactly while one is: the disabled button keeps queries
    from overlapping. *)
Theorem button_queries_do_not_overlap
    (toLocaleDateString : string -> string) (getTime : string -> JsNumber)
    (actions : list Action) :
  forallb by_button actions = true ->
  let x := session toLocaleDateString getTime actions in
  (List.length (pending x) <= 1)%nat
  /\ (loading (current x) = true <-> pending x <> []).
Proof.
  intros Hbutton x. subst x. unfold session.
  assert (Hstart : one_at_a_time (mkSession initialState [])).
  { unfold one_at_a_time. simpl. repeat split.
    - constructor.
    - lia.
    - discriminate.
    - intros Hne. now elim Hne. }
  destruct (session_keeps_one_at_a_time toLocaleDateString getTime
              actions _ Hbutton Hstart) as (_ & Hlen & Hflag).
  split; assumption.
Qed.

Lemma button_queries_do_not_overlap_witness :
  (List.length
     (pending
        (session Sample.enUS_toLocaleDateString Sample.enUS_getTime
           [ Typing "octocat"; Click Sample.online; Click Sample.online;
             Settle 0 ])) <= 1)%nat.
Proof.
  apply (button_queries_do_not_overlap Sample.enUS_toLocaleDateString
           Sample.enUS_getTime
           [ Typing "octocat"; Click Sample.online; Click Sample.online;
             Settle 0 ]).
  reflexivity.
Defined.

(** X15. In every session, however queries are submitted and in whatever
    order the requests settle, once no call of the handler is in flight
    the loading flag is down. *)
Theorem settled_session_is_idle
    (toLocaleDateString : string -> string) (getTime : string -> JsNumber)
    (actions : list Action) :
  pending (session toLocaleDateString getTime actions) = [] ->
  loading (current (session toLocaleDateString getTime actions)) = false.
Proof.
  unfold session.
  assert (Hstart : settled_means_idle (mkSession initialState [])).
  { split; [constructor|reflexivity]. }
  destruct (session_keeps_idle toLocaleDateString getTime actions _ Hstart)
    as [_ Hidle].
  exact Hidle.
Qed.

Lemma settled_session_is_idle_witness :
  loading
    (current
       (session Sample.enUS_toLocaleDateString Sample.enUS_getTime
          [ Typing "octocat"; KeyDown "Enter" Sample.online;
            KeyDown "Enter" (Sample.refusing ReposStep);
            Settle 1; Settle 0; Settle 1; Settle 0; Settle 0 ]))
  = false.
Proof.
  apply (settled_session_is_idle Sample.enUS_toLocaleDateString
           Sample.enUS_getTime
           [ Typing "octocat"; KeyDown "Enter" Sample.online;
             KeyDown "Enter" (Sample.refusing ReposStep);
             Settle 1; Settle 0; Settle 1; Settle 0; Settle 0 ]).
  reflexivity.
Defined.

Ltac run_session :=
  unfold session; cbn [fold_left step];
  change (String.eqb "Enter" "Enter") with true; cbv iota.

(** X16. The Enter key calls the handler also while a query is in
    flight.  When a second query is submitted that way and the profile
    step of the first one then fails, the first query puts the loading
    flag down and publishes its error while the profile request of the
    second is still pending: the button is enabled and no skeleton is
    shown although a request is in flight. *)
Theorem enter_overlap_lowers_flag_early
    (toLocaleDateString : string -> string) (getTime : string -> JsNumber)
    (formatDate toUpperCase : string -> string)
    (u : string) (first second : Upstream) (err : Thrown) :
  u <> "" ->
  payload ProfileStep (fetch_profile first (profile_url u)) = inl err ->
  let x := session toLocaleDateString getTime
             [ Typing u; KeyDown "Enter" first; KeyDown "Enter" second;
               Settle 0 ] in
  List.length (pending x) = 1%nat
  /\ loading (current x) = false
  /\ error (current x) = message_of err
  /\ button_disabled (render formatDate toUpperCase (current x)) = false
  /\ main_area (render formatDate toUpperCase (current x)) = NoMain.
Proof.
  intros Hname Hfail x. subst x. run_session.
  rewrite (launch_failed_profile _ _ first _ err); [|exact Hname|exact Hfail].
  cbn [current pending].
  match goal with
  | |- context [launch _ _ second ?y] =>
      destruct (launch_cases toLocaleDateString getTime second y)
        as [[Hempty _]|[s' [k [-> [Hup Hk]]]]]; [now elim Hname|]
  end.
  unfold settle. simpl. repeat split; reflexivity.
Qed.

Lemma enter_overlap_lowers_flag_early_witness :
  loading
    (current
       (session Sample.enUS_toLocaleDateString Sample.enUS_getTime
          [ Typing "octocat"; KeyDown "Enter" (Sample.refusing ProfileStep);
            KeyDown "Enter" Sample.online; Settle 0 ]))
  = false
  /\ List.length
       (pending
          (session Sample.enUS_toLocaleDateString Sample.enUS_getTime
             [ Typing "octocat"; KeyDown "Enter" (Sample.refusing ProfileStep);
               KeyDown "Enter" Sample.online; Settle 0 ]))
     = 1%nat.
Proof.
  assert (Hname : "octocat" <> "") by discriminate.
  destruct (enter_overlap_lowers_flag_early Sample.enUS_toLocaleDateString
              Sample.enUS_getTime Scenario.formatDate Scenario.toUpperCase
              "octocat" (Sample.refusing ProfileStep) Sample.online
              (ErrorObject "User not found or API limit exceeded")
              Hname eq_refl)
    as (Hlen & Hloading & _).
  split; assumption.
Defined.

(** X17. When a second query is submitted with the Enter key while the
    first is in flight, both succeed, and the answers to the first arrive
    after the second has finished, the session ends showing the second
    identifier in the input with the profile, repositories, histogram and
    series of the first: the late answers replace the newer results. *)
Theorem late_answers_replace_newer_results
    (toLocaleDateString : string -> string) (getTime : string -> JsNumber)
    (u1 u2 : string) (first second : Upstream)
    (p1 p2 : UserProfile.t) (r1 r2 : list Repository.t)
    (ev1 ev2 : list Event.t) :
  u1 <> "" -> u2 <> "" ->
  cycle_result u1 first = inr (p1, r1, ev1) ->
  cycle_result u2 second = inr (p2, r2, ev2) ->
  let x := session toLocaleDateString getTime
             [ Typing u1; KeyDown "Enter" first;
               Typing u2; KeyDown "Enter" second;
               Settle 1; Settle 1; Settle 1;
               Settle 0; Settle 0; Settle 0 ] in
  pending x = []
  /\ username (current x) = u2
  /\ views (current x)
     = (Some p1, r1, langStats r1,
        processedCommitData toLocaleDateString getTime ev1).
Proof.
  intros Hname1 Hname2 Hok1 Hok2 x. subst x. run_session.
  rewrite (launch_success _ _ first _ p1 r1 ev1);
    [|exact Hname1|exact Hok1].
  rewrite (launch_success _ _ second _ p2 r2 ev2);
    [|exact Hname2|exact Hok2].
  unfold settle. simpl. repeat split; reflexivity.
Qed.

Lemma late_answers_replace_newer_results_witness :
  username
    (current
       (session Sample.enUS_toLocaleDateString Sample.enUS_getTime
          [ Typing "octocat"; KeyDown "Enter" Sample.online;
            Typing "hubot"; KeyDown "Enter" Scenario.elsewhere;
            Settle 1; Settle 1; Settle 1;
            Settle 0; Settle 0; Settle 0 ]))
  = "hubot"
  /\ profile
       (current
          (session Sample.enUS_toLocaleDateString Sample.enUS_getTime
             [ Typing "octocat"; KeyDown "Enter" Sample.online;
               Typing "hubot"; KeyDown "Enter" Scenario.elsewhere;
               Settle 1; Settle 1; Settle 1;
               Settle 0; Settle 0; Settle 0 ]))
     = Some Sample.octocat.
Proof.
  assert (Hname1 : "octocat" <> "") by discriminate.
  assert (Hname2 : "hubot" <> "") by discriminate.
  destruct (late_answers_replace_newer_results
              Sample.enUS_toLocaleDateString Sample.enUS_getTime
              "octocat" "hubot" Sample.online Scenario.elsewhere
              Sample.octocat Scenario.hubot
              Sample.octocat_repos Scenario.polyglot
              Sample.feed [Sample.watch_2jan]
              Hname1 Hname2 eq_refl eq_refl)
    as (_ & Hinput & Hviews).
  split; [exact Hinput|].
  unfold views in Hviews. now inversion Hviews.
Defined.

(** X18. When a second query is submitted with the Enter key while the
    first is in flight, both succeed, and the second runs from its
    profile answer to its end between the profile answer and the
    repository answer of the first, the session ends with the profile of
    the second query beside the repositories, histogram and series of the
    first: with no call left in flight, the views come from two
    different queries. *)
Theorem interleaved_answers_mix_two_queries
    (toLocaleDateString : string -> string) (getTime : string -> JsNumber)
    (u1 u2 : string) (first second : Upstream)
    (p1 p2 : UserProfile.t) (r1 r2 : list Repository.t)
    (ev1 ev2 : list Event.t) :
  u1 <> "" -> u2 <> "" ->
  cycle_result u1 first = inr (p1, r1, ev1) ->
  cycle_result u2 second = inr (p2, r2, ev2) ->
  let x := session toLocaleDateString getTime
             [ Typing u1; KeyDown "Enter" first;
               Typing u2; KeyDown "Enter" second;
               Settle 0;
               Settle 1; Settle 1; Settle 1;
               Settle 0; Settle 0 ] in
  pending x = []
  /\ loading (current x) = false
  /\ views (current x)
     = (Some p2, r1, langStats r1,
        processedCommitData toLocaleDateString getTime ev1).
Proof.
  intros Hname1 Hname2 Hok1 Hok2 x. subst x. run_session.
  rewrite (launch_success _ _ first _ p1 r1 ev1);
    [|exact Hname1|exact Hok1].
  rewrite (launch_success _ _ second _ p2 r2 ev2);
    [|exact Hname2|exact Hok2].
  unfold settle. simpl. repeat split; reflexivity.
Qed.

Lemma interleaved_answers_mix_two_queries_witness :
  views
    (current
       (session Sample.enUS_toLocaleDateString Sample.enUS_getTime
          [ Typing "octocat"; KeyDown "Enter" Sample.online;
            Typing "hubot"; KeyDown "Enter" Scenario.elsewhere;
            Settle 0;
            Settle 1; Settle 1; Settle 1;
            Settle 0; Settle 0 ]))
  = (Some Scenario.hubot, Sample.octocat_repos,
     langStats Sample.octocat_repos,
     processedCommitData Sample.enUS_toLocaleDateString Sample.enUS_getTime
       Sample.feed).
Proof.
  assert (Hname1 : "octocat" <> "") by discriminate.
  assert (Hname2 : "hubot" <> "") by discriminate.
  apply (interleaved_answers_mix_two_queries
           Sample.enUS_toLocaleDateString Sample.enUS_getTime
           "octocat" "hubot" Sample.online Scenario.elsewhere
           Sample.octocat Scenario.hubot
           Sample.octocat_repos Scenario.polyglot
           Sample.feed [Sample.watch_2jan]
           Hname1 Hname2 eq_refl eq_refl).
Defined.

(** X19. When a second query is submitted with the Enter key while the
    first is in flight, the profile step of the second fails and the
    first then succeeds, the session ends with the error message of the
    second query above the profile grid and the tabs of the first: an
    error and results are rendered together. *)
Theorem error_rendered_beside_results
    (toLocaleDateString : string -> string) (getTime : string -> JsNumber)
    (formatDate toUpperCase : string -> string)
    (u1 u2 : string) (first second : Upstream)
    (p1 : UserProfile.t) (r1 : list Repository.t) (ev1 : list Event.t)
    (err : Thrown) :
  u1 <> "" -> u2 <> "" ->
  cycle_result u1 first = inr (p1, r1, ev1) ->
  payload ProfileStep (fetch_profile second (profile_url u2)) = inl err ->
  message_of err <> "" ->
  let x := session toLocaleDateString getTime
             [ Typing u1; KeyDown "Enter" first;
               Typing u2; KeyDown "Enter" second;
               Settle 1; Settle 0; Settle 0; Settle 0 ] in
  pending x = []
  /\ render formatDate toUpperCase (current x)
     = mkView u2 false SearchIcon (Some (message_of err))
         (ProfileGrid (profile_card formatDate toUpperCase p1) (langStats r1))
         (Some (mkTabsView
                  (processedCommitData toLocaleDateString getTime ev1)
                  (List.length r1)
                  (map (repo_card formatDate) r1))).
Proof.
  intros Hname1 Hname2 Hok1 Hfail Hmsg x. subst x. run_session.
  rewrite (launch_success _ _ first _ p1 r1 ev1);
    [|exact Hname1|exact Hok1].
  rewrite (launch_failed_profile _ _ second _ err);
    [|exact Hname2|exact Hfail].
  unfold settle. simpl. split; [reflexivity|].
  unfold render, when_truthy, truthy. simpl.
  destruct err as [message|]; simpl in *; [|reflexivity].
  now destruct (String.eqb_spec message "").
Qed.

Lemma error_rendered_beside_results_witness :
  error_paragraph
    (render Scenario.formatDate Scenario.toUpperCase
       (current
          (session Sample.enUS_toLocaleDateString Sample.enUS_getTime
             [ Typing "octocat"; KeyDown "Enter" Sample.online;
               Typing "nobody"; KeyDown "Enter" (Sample.refusing ProfileStep);
               Settle 1; Settle 0; Settle 0; Settle 0 ])))
  = Some "User not found or API limit exceeded".
Proof.
  assert (Hname1 : "octocat" <> "") by discriminate.
  assert (Hname2 : "nobody" <> "") by discriminate.
  assert (Hmsg : message_of
                   (ErrorObject "User not found or API limit exceeded")
                 <> "") by discriminate.
  destruct (error_rendered_beside_results
              Sample.enUS_toLocaleDateString Sample.enUS_getTime
              Scenario.formatDate Scenario.toUpperCase
              "octocat" "nobody" Sample.online (Sample.refusing ProfileStep)
              Sample.octocat Sample.octocat_repos Sample.feed
              (ErrorObject "User not found or API limit exceeded")
              Hname1 Hname2 eq_refl eq_refl Hmsg)
    as [_ Hview].
  now rewrite Hview.
Defined.

Lemma first_occurrences_length (l : list string) :
  (List.length (first_occurrences l) <= List.length l)%nat.
Proof.
  induction l as [|x l IH]; simpl; [lia|].
  pose proof (filter_length_le (fun y => negb (String.eqb x y))
                (first_occurrences l)).
  lia.
Qed.

Lemma tally_length (cs : list (string * Z)) :
  (List.length (tally cs []) <= List.length cs)%nat.
Proof.
  pose proof (tally_keys_order cs []) as Hkeys. simpl in Hkeys.
  assert (Hlen : List.length (tally cs [])
                 = List.length (JsObject.keys (tally cs []))).
  { unfold JsObject.keys. now rewrite length_map. }
  rewrite Hlen, Hkeys.
  etransitivity; [apply filter_length_le|].
  etransitivity; [apply first_occurrences_length|].
  now rewrite length_map.
Qed.

Lemma contributions_length (reposData : list Repository.t) :
  List.length (language_contributions reposData)
  = List.length (filter has_language reposData).
Proof.
  induction reposData as [|repo reposData IH]; [reflexivity|].
  rewrite contributions_cons, length_app, IH.
  simpl filter. rewrite has_language_eq.
  destruct (Repository.language repo) as [lang|]; [|reflexivity].
  destruct (truthy lang); reflexivity.
Qed.

(** X20. The histogram has at most as many entries as there are
    repositories that declare a language, and the activity series at
    most as many entries as there are push events. *)
Theorem aggregates_no_longer_than_inputs
    (toLocaleDateString : string -> string) (getTime : string -> JsNumber)
    (reposData : list Repository.t) (eventsData : list Event.t) :
  (List.length (langStats reposData)
   <= List.length (filter has_language reposData))%nat
  /\ (List.length (processedCommitData toLocaleDateString getTime eventsData)
      <= List.length (filter isPushEvent eventsData))%nat.
Proof.
  split.
  - unfold langStats.
    rewrite (Permutation_length (Array_sort_perm _ _)), length_map.
    rewrite (Permutation_length (JsObjectFacts.entries_perm _)).
    rewrite langMap_count_up.
    etransitivity; [apply count_up_length|].
    unfold declared_languages. rewrite length_map, contributions_length.
    simpl. lia.
  - rewrite (Permutation_length
               (series_perm toLocaleDateString getTime eventsData)),
            length_map.
    etransitivity; [apply tally_length|].
    unfold push_contributions. now rewrite length_map.
Qed.

(* ================================================================== *)
(** * The loading flag along a cycle *)

(** C10, as the code has it. For every cycle with a non-empty identifier
    that runs on its own, no other call of the handler being in flight:
    after the first setter call and until the last one, the loading flag
    is true, in particular in every state rendered while a request is
    pending, of which there is at least one; the cycle ends with the flag
    false, whether it succeeds or fails; and after a cycle whose three
    steps succeed the error message is the empty string.  And in every
    session, with cycles that overlap or not, a call of the handler that
    resumes and runs to its end leaves the loading flag false. *)
Theorem loading_flag_brackets_cycle
    (toLocaleDateString : string -> string) (getTime : string -> JsNumber)
    (s : AppState) (net : Upstream) :
  username s <> "" ->
  let effects := fetchGitHubData toLocaleDateString getTime s net in
  (forall n : nat,
     (0 < n < List.length effects)%nat ->
     loading (run s (firstn n effects)) = true)
  /\ Forall (fun s' => loading s' = true) (removelast (observable s effects))
  /\ removelast (observable s effects) <> []
  /\ loading (run s effects) = false
  /\ (forall bodies,
        cycle_result (username s) net = inr bodies ->
        error (run s effects) = "")
  /\ (forall (actions : list Action) (i : nat) (k : list Effect)
             (s' : AppState),
        let x := session toLocaleDateString getTime actions in
        nth_error (pending x) i = Some k ->
        advance (current x) k = (s', None) ->
        loading s' = false).
Proof.
  intros Hname effects. subst effects.
  assert (Hend :
    forall (actions : list Action) (i : nat) (k : list Effect)
           (s' : AppState),
      let x := session toLocaleDateString getTime actions in
      nth_error (pending x) i = Some k ->
      advance (current x) k = (s', None) ->
      loading s' = false).
  { intros actions i k s' x Hnth Hadv. subst x.
    assert (Hstart : settled_means_idle (mkSession initialState []))
      by (split; [constructor|reflexivity]).
    destruct (session_keeps_idle toLocaleDateString getTime actions _ Hstart)
      as [Hall _].
    fold (session toLocaleDateString getTime actions) in Hall.
    rewrite Forall_forall in Hall.
    pose proof (advance_continuation
                  (current (session toLocaleDateString getTime actions)) k
                  (Hall k (nth_error_In _ _ Hnth))) as Hk.
    now rewrite Hadv in Hk. }
  unfold cycle_result.
  start_cycle Hname.
  destruct (payload ProfileStep _) as [e1|p];
    [|destruct (payload ReposStep _) as [e2|r];
      [|destruct (payload EventsStep _) as [e3|ev]]];
    (split; [|split; [|split; [|split; [|split]]]]);
    try exact Hend;
    try (intros n Hn; simpl in Hn;
         do 15 (destruct n as [|n]; [try lia; reflexivity|]); lia);
    try (simpl; repeat constructor);
    try discriminate;
    try reflexivity.
Qed.

Lemma loading_flag_brackets_cycle_witness :
  loading (run Sample.typed
             (fetchGitHubData Sample.enUS_toLocaleDateString
                Sample.enUS_getTime Sample.typed Sample.online)) = false
  /\ error (run Sample.typed
              (fetchGitHubData Sample.enUS_toLocaleDateString
                 Sample.enUS_getTime Sample.typed Sample.online)) = "".
Proof.
  assert (Hname : username Sample.typed <> "") by discriminate.
  destruct (loading_flag_brackets_cycle Sample.enUS_toLocaleDateString
              Sample.enUS_getTime Sample.typed Sample.online Hname)
    as (_ & _ & _ & Hloading & Herror & _).
  split; [exact Hloading|].
  eapply Herror. reflexivity.
Defined.

(** C10, as stated, fails on cycles that overlap.  A query is submitted
    with the Enter key, and a second one, again with the Enter key, while
    the profile request of the first is pending; the profile step of the
    second fails.  The second cycle lowers the flag and publishes its
    error while the first, which is to succeed, is still in flight with
    the flag down; and the first then ends, after three successful
    steps, in a state whose error message is that of the second. *)
Lemma overlapped_cycle_runs_with_flag_down :
  ~ flag_up_while_in_flight
      (session Sample.enUS_toLocaleDateString Sample.enUS_getTime
         [ Typing "octocat"; KeyDown "Enter" Sample.online;
           KeyDown "Enter" (Sample.refusing ProfileStep); Settle 1 ])
  /\ pending
       (session Sample.enUS_toLocaleDateString Sample.enUS_getTime
          [ Typing "octocat"; KeyDown "Enter" Sample.online;
            KeyDown "Enter" (Sample.refusing ProfileStep); Settle 1;
            Settle 0; Settle 0; Settle 0 ]) = []
  /\ views
       (current
          (session Sample.enUS_toLocaleDateString Sample.enUS_getTime
             [ Typing "octocat"; KeyDown "Enter" Sample.online;
               KeyDown "Enter" (Sample.refusing ProfileStep); Settle 1;
               Settle 0; Settle 0; Settle 0 ]))
     = (Some Sample.octocat, Sample.octocat_repos,
        langStats Sample.octocat_repos,
        processedCommitData Sample.enUS_toLocaleDateString
          Sample.enUS_getTime Sample.feed)
  /\ error
       (current
          (session Sample.enUS_toLocaleDateString Sample.enUS_getTime
             [ Typing "octocat"; KeyDown "Enter" Sample.online;
               KeyDown "Enter" (Sample.refusing ProfileStep); Settle 1;
               Settle 0; Settle 0; Settle 0 ]))
     = "User not found or API limit exceeded".
Proof.
  split; [|repeat split; reflexivity].
  unfold flag_up_while_in_flight. intros Hclaim.
  assert (Hdown :
    loading
      (current
         (session Sample.enUS_toLocaleDateString Sample.enUS_getTime
            [ Typing "octocat"; KeyDown "Enter" Sample.online;
              KeyDown "Enter" (Sample.refusing ProfileStep); Settle 1 ]))
    = false) by reflexivity.
  rewrite Hclaim in Hdown; [discriminate Hdown|].
  discriminate.
Qed.
